(** * The account service of [src/index.ts]

    A shallow embedding of the Express handlers of [src/index.ts] and of the
    older variant of the same file, over a model of the [utilisateurs] table
    of the SQLite database and of the argon2 hasher.

    - The table is the list of its rows in rowid order, together with the
      AUTOINCREMENT counter kept in [sqlite_sequence].
    - A statement either throws and leaves the table as it was (SQLite backs
      out a statement that fails) or returns its result and the new table.
    - [argon2.hash] and [argon2.verify] are parameters of the development;
      the salt drawn by a call to [argon2.hash] and the faults of the hasher
      and of the database are read from an explicit environment [Env].
    - A request body has the type the handlers cast it to: each field is a
      string or [undefined].  The [:id] of a route is the integer SQLite
      compares with the [id] column.
    - A handler is a function from the environment, the database and the
      request to the response sent and the database left behind. *)

From Stdlib Require Import ZArith List String Ascii Bool Lia Sorted.
Import ListNotations.
Local Open Scope Z_scope.
Local Open Scope string_scope.

(** ** Data *)

(** [interface Utilisateur], also the row type of the table. *)
Record Utilisateur := mkUtilisateur
  { id : Z;
    nomutilisateur : string;
    motdepasse : string;
    email : string }.

(** [req.body] cast to [Partial<Omit<Utilisateur, "id">>]: each field is a
    string or [undefined]. *)
Module Body.
Record t := mk
  { nomutilisateur : option string;
    motdepasse : option string;
    email : option string }.
End Body.

(** JavaScript truthiness of a [string | undefined]: [undefined] and the empty
    string are falsy. *)
Definition truthy (v : option string) : bool :=
  match v with
  | Some s => negb (s =? "")
  | None => false
  end.

(** The value read from a field once it is known to be truthy. *)
Definition text (v : option string) : string :=
  match v with
  | Some s => s
  | None => ""
  end.

(** The JSON documents the handlers send. *)
Inductive JValue :=
| JNumber (n : Z)
| JString (s : string).

Definition JObject := list (string * JValue).

Inductive Json :=
| JObj (o : JObject)
| JArr (l : list JObject).

(** [res.status(s).json(j)] *)
Record Response := mkResponse { status : Z; json : Json }.

Definition keys (o : JObject) : list string := map fst o.

(** ** Exceptions *)

Inductive Error :=
| SqliteConstraintUnique
| SqliteError
| Argon2Error.

Inductive Exc (A : Type) :=
| Val (a : A)
| Throw (e : Error).
Arguments Val {A} a.
Arguments Throw {A} e.

Definition bind {A B : Type} (m : Exc A) (k : A -> Exc B) : Exc B :=
  match m with
  | Val a => k a
  | Throw e => Throw e
  end.

Notation "x <- m ;; k" := (bind m (fun x => k))
  (at level 100, m at next level, right associativity).

(** ** The environment of a request *)

Record Env := mkEnv
  { salt : string;          (* the salt [argon2.hash] draws *)
    hasher_fault : bool;    (* [argon2.hash] rejects *)
    store_fault : bool }.   (* the statement throws before touching the table *)

(** ** The database *)

Record Database := mkDatabase
  { utilisateurs : list Utilisateur;
    sqlite_sequence : Z }.

(** [CREATE TABLE IF NOT EXISTS utilisateurs (...)] on a new file. *)
Definition empty_db : Database := mkDatabase [] 0.

(** The mutable columns, the keys of [Partial<Omit<Utilisateur, "id">>]. *)
Inductive Column := Nomutilisateur | Motdepasse | Email.

Definition column_name (c : Column) : string :=
  match c with
  | Nomutilisateur => "nomutilisateur"
  | Motdepasse => "motdepasse"
  | Email => "email"
  end.

Definition column_eqb (c d : Column) : bool :=
  match c, d with
  | Nomutilisateur, Nomutilisateur => true
  | Motdepasse, Motdepasse => true
  | Email, Email => true
  | _, _ => false
  end.

Definition has_id (i : Z) (r : Utilisateur) : bool := (id r =? i)%Z.

Definition find_id (i : Z) (db : Database) : option Utilisateur :=
  find (has_id i) (utilisateurs db).

Definition find_nom (n : string) (db : Database) : option Utilisateur :=
  find (fun r => nomutilisateur r =? n) (utilisateurs db).

Definition nom_taken (n : string) (l : list Utilisateur) : bool :=
  existsb (fun r => nomutilisateur r =? n) l.

Definition email_taken (e : string) (l : list Utilisateur) : bool :=
  existsb (fun r => email r =? e) l.

Definition max_id (l : list Utilisateur) : Z :=
  fold_right (fun r m => Z.max (id r) m) 0 l.

(** A statement run through the shared handle: a fault of the database makes
    it throw and nothing is written. *)
Definition run {A : Type} (env : Env) (stmt : Exc A) : Exc A :=
  if store_fault env then Throw SqliteError else stmt.

(** [INSERT INTO utilisateurs (nomutilisateur, motdepasse, email) VALUES (?, ?, ?)];
    returns [lastInsertRowid].  [id] is [INTEGER PRIMARY KEY AUTOINCREMENT]:
    one more than the largest rowid the table ever held.  Ids are integers
    without a bound here: the model is that of the code for ids below 2^53,
    where [Number(result.lastInsertRowid)] is exact (SQLite itself refuses
    the INSERT once the rowid 2^63-1 is used). *)
Definition next_id (db : Database) : Z :=
  (Z.max (sqlite_sequence db) (max_id (utilisateurs db)) + 1)%Z.

Definition insert_utilisateur (n h e : string) (db : Database)
  : Exc (Z * Database) :=
  if nom_taken n (utilisateurs db) || email_taken e (utilisateurs db)
  then Throw SqliteConstraintUnique
  else
    let i := next_id db in
    Val (i, mkDatabase (utilisateurs db ++ [mkUtilisateur i n h e]) i).

(** The columns [SELECT id, nomutilisateur, email] reads from a row. *)
Definition public_row (r : Utilisateur) : JObject :=
  [ ("id", JNumber (id r));
    ("nomutilisateur", JString (nomutilisateur r));
    ("email", JString (email r)) ].

(** [SELECT id, nomutilisateur, email FROM utilisateurs], [.all()].  The
    statement has no ORDER BY: the rows come in the order of the store, which
    is that of [listAll] in the specification of the store (insertion order
    via primary key ascending), the scan SQLite makes of a rowid table. *)
Definition select_all (db : Database) : Exc (list JObject) :=
  Val (map public_row (utilisateurs db)).

(** [SELECT id, nomutilisateur, email FROM utilisateurs WHERE id = ?], [.get()] *)
Definition select_by_id (i : Z) (db : Database) : Exc (option JObject) :=
  Val (option_map public_row (find_id i db)).

(** [SELECT motdepasse FROM utilisateurs WHERE nomutilisateur = ?], [.get()] *)
Definition select_motdepasse (n : string) (db : Database) : Exc (option string) :=
  Val (option_map motdepasse (find_nom n db)).

Definition set_column (r : Utilisateur) (a : Column * string) : Utilisateur :=
  match fst a with
  | Nomutilisateur => mkUtilisateur (id r) (snd a) (motdepasse r) (email r)
  | Motdepasse => mkUtilisateur (id r) (nomutilisateur r) (snd a) (email r)
  | Email => mkUtilisateur (id r) (nomutilisateur r) (motdepasse r) (snd a)
  end.

Definition assigns (c : Column) (sets : list (Column * string)) : bool :=
  existsb (fun a => column_eqb (fst a) c) sets.

(** The UNIQUE indexes an UPDATE rewrites are those of the columns it
    assigns; the new entry must differ from the entries of the other rows. *)
Definition violates_unique (sets : list (Column * string)) (r' : Utilisateur)
    (others : list Utilisateur) : bool :=
  (assigns Nomutilisateur sets && nom_taken (nomutilisateur r') others)
  || (assigns Email sets && email_taken (email r') others).

(** The SET clause built from the keys of [updates]:
    [Object.keys(updates).map((key) => `${key} = ?`).join(", ")]. *)
Definition set_clause (sets : list (Column * string)) : string :=
  String.concat ", " (map (fun a => column_name (fst a) ++ " = ?") sets).

(** [UPDATE utilisateurs SET c1 = ?, ..., ck = ? WHERE id = ?]; returns
    [changes].  [id] is the primary key: at most one row is selected. *)
Definition update_utilisateur (sets : list (Column * string)) (i : Z)
    (db : Database) : Exc (Z * Database) :=
  match find_id i db with
  | None => Val (0, db)
  | Some r =>
      let r' := fold_left set_column sets r in
      if violates_unique sets r'
           (filter (fun x => negb (has_id i x)) (utilisateurs db))
      then Throw SqliteConstraintUnique
      else Val (1, mkDatabase
                     (map (fun x => if has_id i x then r' else x)
                          (utilisateurs db))
                     (sqlite_sequence db))
  end.

(** [DELETE FROM utilisateurs WHERE id = ?]; returns [changes]. *)
Definition delete_utilisateur (i : Z) (db : Database) : Exc (Z * Database) :=
  Val (Z.of_nat (List.length (filter (has_id i) (utilisateurs db))),
       mkDatabase (filter (fun x => negb (has_id i x)) (utilisateurs db))
                  (sqlite_sequence db)).

(** ** The hasher *)

(** The two functions of the [argon2] package the service calls.
    [hash salt plain] is the token [argon2.hash(plain)] resolves to when it
    draws [salt]; [verify token plain] is what [argon2.verify(token, plain)]
    resolves to, [None] when it rejects. *)
Class Argon2 := mkArgon2
  { hash : string -> string -> string;
    verify : string -> string -> option bool }.

(** [await argon2.hash(plain)] *)
Definition argon2_hash `{Argon2} (env : Env) (plain : string) : Exc string :=
  if hasher_fault env then Throw Argon2Error else Val (hash (salt env) plain).

(** [await argon2.verify(token, plain)] *)
Definition argon2_verify `{Argon2} (token plain : string) : Exc bool :=
  match verify token plain with
  | Some b => Val b
  | None => Throw Argon2Error
  end.

(** ** The handlers of [src/index.ts] *)

Module Index.
Section Handlers.
Context `{Argon2}.

Definition erreur (s : Z) (msg : string) : Response :=
  mkResponse s (JObj [("erreur", JString msg)]).

Definition message (s : Z) (msg : string) : Response :=
  mkResponse s (JObj [("message", JString msg)]).

(** The middleware: [Some] response when it answers itself, [None] when it
    calls [next()].  The body is one that was parsed into its fields; the
    middleware reads [req.body] outside any [try], and a request without a
    parsed body is not a [Body.t]. *)
Definition validateUserInput (body : Body.t) : option Response :=
  if negb (truthy (Body.nomutilisateur body))
     || negb (truthy (Body.motdepasse body))
     || negb (truthy (Body.email body))
  then Some (erreur 400 "Tous les champs sont requis")
  else None.

(** [POST /utilisateurs] *)
Definition post_utilisateurs (env : Env) (db : Database) (body : Body.t)
  : Response * Database :=
  match validateUserInput body with
  | Some res => (res, db)
  | None =>
      let nomutilisateur := text (Body.nomutilisateur body) in
      let motdepasse := text (Body.motdepasse body) in
      let email := text (Body.email body) in
      match
        (motdepasse_hashed <- argon2_hash env motdepasse ;;
         run env (insert_utilisateur nomutilisateur motdepasse_hashed email db))
      with
      | Val (lastInsertRowid, db') =>
          (mkResponse 201
             (JObj [ ("id", JNumber lastInsertRowid);
                     ("nomutilisateur", JString nomutilisateur);
                     ("email", JString email) ]),
           db')
      | Throw _ =>
          (erreur 400 "Erreur lors de la création de l'utilisateur", db)
      end
  end.

(** [GET /utilisateurs] *)
Definition get_utilisateurs (env : Env) (db : Database)
  : Response * Database :=
  match run env (select_all db) with
  | Val utilisateurs => (mkResponse 200 (JArr utilisateurs), db)
  | Throw _ =>
      (erreur 500 "Erreur lors de la récupération des utilisateurs", db)
  end.

(** [GET /utilisateurs/:id] *)
Definition get_utilisateur (env : Env) (db : Database) (i : Z)
  : Response * Database :=
  match run env (select_by_id i db) with
  | Val None => (erreur 404 "Utilisateur non trouvé", db)
  | Val (Some user) => (mkResponse 200 (JObj user), db)
  | Throw _ =>
      (erreur 500 "Erreur lors de la récupération de l'utilisateur", db)
  end.

(** [...(v && { c: v })]: nothing is spread from a falsy value. *)
Definition spread (c : Column) (v : option string) : list (Column * string) :=
  if truthy v then [(c, text v)] else [].

(** The object literal [updates]; the entries are in the order of its keys.
    [argon2.hash] is called only when [motdepasse] is truthy. *)
Definition updates (env : Env) (body : Body.t) : Exc (list (Column * string)) :=
  hashed <- (if truthy (Body.motdepasse body)
             then h <- argon2_hash env (text (Body.motdepasse body)) ;;
                  Val [(Motdepasse, h)]
             else Val []) ;;
  Val (spread Nomutilisateur (Body.nomutilisateur body)
       ++ hashed
       ++ spread Email (Body.email body))%list.

(** [PUT /utilisateurs/:id] *)
Definition put_utilisateur (env : Env) (db : Database) (i : Z) (body : Body.t)
  : Response * Database :=
  if negb (truthy (Body.nomutilisateur body))
     && negb (truthy (Body.motdepasse body))
     && negb (truthy (Body.email body))
  then
    (erreur 400
       "Au moins un champ doit être fourni (nomutilisateur, motdepasse, ou email)",
     db)
  else
    match
      (sets <- updates env body ;;
       run env (update_utilisateur sets i db))
    with
    | Val (changes, db') =>
        if (changes =? 0)%Z
        then (erreur 404 "Utilisateur non trouvé", db')
        else (message 200 "Utilisateur mis à jour avec succès", db')
    | Throw _ =>
        (erreur 400 "Erreur lors de la mise à jour de l'utilisateur", db)
    end.

(** [DELETE /utilisateurs/:id] *)
Definition delete_utilisateur_route (env : Env) (db : Database) (i : Z)
  : Response * Database :=
  match run env (delete_utilisateur i db) with
  | Val (changes, db') =>
      if (changes =? 0)%Z
      then (erreur 404 "Utilisateur non trouvé", db')
      else (message 200 "Utilisateur supprimé avec succès", db')
  | Throw _ =>
      (erreur 500 "Erreur lors de la suppression de l'utilisateur", db)
  end.

(** [POST /verifier-motdepasse]; its body carries [nomutilisateur] and
    [motdepasse]. *)
Definition post_verifier_motdepasse (env : Env) (db : Database)
    (body : Body.t) : Response * Database :=
  if negb (truthy (Body.nomutilisateur body))
     || negb (truthy (Body.motdepasse body))
  then (erreur 400 "Nom d'utilisateur et mot de passe requis", db)
  else
    match run env (select_motdepasse (text (Body.nomutilisateur body)) db) with
    | Val None => (erreur 404 "Utilisateur non trouvé", db)
    | Val (Some stored) =>
        match argon2_verify stored (text (Body.motdepasse body)) with
        | Val true => (message 200 "Mot de passe correct !", db)
        | Val false => (erreur 401 "Mot de passe incorrect, désolé", db)
        | Throw _ =>
            (erreur 500 "Erreur lors de la vérification du mot de passe", db)
        end
    | Throw _ =>
        (erreur 500 "Erreur lors de la vérification du mot de passe", db)
    end.
End Handlers.
End Index.

(** ** The handlers of the older variant of the file

    The variant answers errors under the key [error], has no
    [/verifier-motdepasse] route, and guards [PUT /utilisateurs/:id] with the
    middleware of [POST]: an update replaces the three columns at once. *)

Module Variant.
Section Handlers.
Context `{Argon2}.

Definition error (s : Z) (msg : string) : Response :=
  mkResponse s (JObj [("error", JString msg)]).

Definition message (s : Z) (msg : string) : Response :=
  mkResponse s (JObj [("message", JString msg)]).

Definition validateUserInput (body : Body.t) : option Response :=
  if negb (truthy (Body.nomutilisateur body))
     || negb (truthy (Body.motdepasse body))
     || negb (truthy (Body.email body))
  then Some (error 400 "Tous les champs sont requis")
  else None.

(** [POST /utilisateurs] *)
Definition post_utilisateurs (env : Env) (db : Database) (body : Body.t)
  : Response * Database :=
  match validateUserInput body with
  | Some res => (res, db)
  | None =>
      let nomutilisateur := text (Body.nomutilisateur body) in
      let motdepasse := text (Body.motdepasse body) in
      let email := text (Body.email body) in
      match
        (motdepasse_hashed <- argon2_hash env motdepasse ;;
         run env (insert_utilisateur nomutilisateur motdepasse_hashed email db))
      with
      | Val (lastInsertRowid, db') =>
          (mkResponse 201
             (JObj [ ("id", JNumber lastInsertRowid);
                     ("nomutilisateur", JString nomutilisateur);
                     ("email", JString email) ]),
           db')
      | Throw _ =>
          (error 400 "Erreur lors de la création de l'utilisateur", db)
      end
  end.

(** [GET /utilisateurs] *)
Definition get_utilisateurs (env : Env) (db : Database)
  : Response * Database :=
  match run env (select_all db) with
  | Val utilisateurs => (mkResponse 200 (JArr utilisateurs), db)
  | Throw _ =>
      (error 500 "Erreur lors de la récupération des utilisateurs", db)
  end.

(** [GET /utilisateurs/:id] *)
Definition get_utilisateur (env : Env) (db : Database) (i : Z)
  : Response * Database :=
  match run env (select_by_id i db) with
  | Val None => (error 404 "Utilisateur non trouvé", db)
  | Val (Some user) => (mkResponse 200 (JObj user), db)
  | Throw _ =>
      (error 500 "Erreur lors de la récupération de l'utilisateur", db)
  end.

(** [PUT /utilisateurs/:id], behind [validateUserInput] *)
Definition put_utilisateur (env : Env) (db : Database) (i : Z) (body : Body.t)
  : Response * Database :=
  match validateUserInput body with
  | Some res => (res, db)
  | None =>
      let nomutilisateur := text (Body.nomutilisateur body) in
      let motdepasse := text (Body.motdepasse body) in
      let email := text (Body.email body) in
      match
        (motdepasse_hashed <- argon2_hash env motdepasse ;;
         run env (update_utilisateur
                    [ (Nomutilisateur, nomutilisateur);
                      (Motdepasse, motdepasse_hashed);
                      (Email, email) ] i db))
      with
      | Val (changes, db') =>
          if (changes =? 0)%Z
          then (error 404 "Utilisateur non trouvé", db')
          else (message 200 "Utilisateur mis à jour avec succès", db')
      | Throw _ =>
          (error 400 "Erreur lors de la mise à jour de l'utilisateur", db)
      end
  end.

(** [DELETE /utilisateurs/:id] *)
Definition delete_utilisateur_route (env : Env) (db : Database) (i : Z)
  : Response * Database :=
  match run env (delete_utilisateur i db) with
  | Val (changes, db') =>
      if (changes =? 0)%Z
      then (error 404 "Utilisateur non trouvé", db')
      else (message 200 "Utilisateur supprimé avec succès", db')
  | Throw _ =>
      (error 500 "Erreur lors de la suppression de l'utilisateur", db)
  end.
End Handlers.
End Variant.

(** ** Notions of the specification, read on the model *)

(** A field is supplied when the request carries a non-empty value for it. *)
Definition supplied (c : Column) (body : Body.t) : bool :=
  match c with
  | Nomutilisateur => truthy (Body.nomutilisateur body)
  | Motdepasse => truthy (Body.motdepasse body)
  | Email => truthy (Body.email body)
  end.

(** The field set of a request, in the order of the columns. *)
Definition supplied_set (body : Body.t) : list Column :=
  filter (fun c => supplied c body) [Nomutilisateur; Motdepasse; Email].

Definition column_of (c : Column) (r : Utilisateur) : string :=
  match c with
  | Nomutilisateur => nomutilisateur r
  | Motdepasse => motdepasse r
  | Email => email r
  end.

(** The value an update writes in a column: the value of the request, hashed
    for the secret. *)
Definition written `{Argon2} (env : Env) (body : Body.t) (c : Column) : string :=
  match c with
  | Nomutilisateur => text (Body.nomutilisateur body)
  | Motdepasse => hash (salt env) (text (Body.motdepasse body))
  | Email => text (Body.email body)
  end.

(** The row of [i] would clash with another row on a column the request
    supplies. *)
Definition clashes (i : Z) (body : Body.t) (db : Database) : bool :=
  let others := filter (fun x => negb (has_id i x)) (utilisateurs db) in
  (truthy (Body.nomutilisateur body)
   && nom_taken (text (Body.nomutilisateur body)) others)
  || (truthy (Body.email body)
      && email_taken (text (Body.email body)) others).

(** No fault of the hasher or of the database strikes the request. *)
Definition fault_free (env : Env) : Prop :=
  hasher_fault env = false /\ store_fault env = false.

(** The request body with one field given the empty string, and with the
    same field left out. *)
Definition with_field (c : Column) (v : option string) (body : Body.t) : Body.t :=
  match c with
  | Nomutilisateur => Body.mk v (Body.motdepasse body) (Body.email body)
  | Motdepasse => Body.mk (Body.nomutilisateur body) v (Body.email body)
  | Email => Body.mk (Body.nomutilisateur body) (Body.motdepasse body) v
  end.

(** The invariant of the table: rowids ascending and below the counter,
    [UNIQUE] names and addresses, no empty name or address. *)
Record wf (db : Database) : Prop := mkWf
  { wf_sorted : StronglySorted Z.lt (map id (utilisateurs db));
    wf_seq : Forall (fun r => (0 < id r <= sqlite_sequence db)%Z) (utilisateurs db);
    wf_nom : NoDup (map nomutilisateur (utilisateurs db));
    wf_email : NoDup (map email (utilisateurs db));
    wf_text : Forall (fun r => nomutilisateur r <> "" /\ email r <> "")
                     (utilisateurs db) }.

(** The requests of the service. *)
Inductive Request :=
| PostUtilisateurs (body : Body.t)
| GetUtilisateurs
| GetUtilisateur (i : Z)
| PutUtilisateur (i : Z) (body : Body.t)
| DeleteUtilisateur (i : Z)
| PostVerifierMotdepasse (body : Body.t).

Definition handle `{Argon2} (env : Env) (db : Database) (req : Request)
  : Response * Database :=
  match req with
  | PostUtilisateurs body => Index.post_utilisateurs env db body
  | GetUtilisateurs => Index.get_utilisateurs env db
  | GetUtilisateur i => Index.get_utilisateur env db i
  | PutUtilisateur i body => Index.put_utilisateur env db i body
  | DeleteUtilisateur i => Index.delete_utilisateur_route env db i
  | PostVerifierMotdepasse body => Index.post_verifier_motdepasse env db body
  end.

(** The databases the service can be in: the empty table, then any sequence
    of requests. *)
Inductive reachable `{Argon2} : Database -> Prop :=
| reachable_empty : reachable empty_db
| reachable_step env db req :
    reachable db -> reachable (snd (handle env db req)).

(** The account named [n] holds the secret [plain]: its stored token is a
    hash of [plain]. *)
Definition holds_secret `{Argon2} (db : Database) (n plain : string) : Prop :=
  exists r s,
    In r (utilisateurs db) /\ nomutilisateur r = n /\
    motdepasse r = hash s plain.

(** The contract of the hasher: a token verifies exactly the string it was
    made from. *)
Definition hasher_correct `{Argon2} : Prop :=
  forall s plain candidate,
    verify (hash s plain) candidate = Some (plain =? candidate).

(** *** A hasher to run the model on

    The token is the salt, with its dollars replaced, then a dollar, then the
    string itself: enough to evaluate the handlers on concrete requests. *)
Definition no_dollar (c : ascii) : ascii :=
  if Ascii.eqb c "$" then "." %char else c.

Fixpoint encode_salt (s : string) : string :=
  match s with
  | EmptyString => EmptyString
  | String c s' => String (no_dollar c) (encode_salt s')
  end.

Fixpoint after_dollar (t : string) : option string :=
  match t with
  | EmptyString => None
  | String c t' => if Ascii.eqb c "$" then Some t' else after_dollar t'
  end.

Definition toy_argon2 : Argon2 :=
  mkArgon2
    (fun s plain => encode_salt s ++ String "$" plain)
    (fun token candidate =>
       match after_dollar token with
       | Some plain => Some (plain =? candidate)
       | None => None
       end).

Definition alice : Utilisateur :=
  mkUtilisateur 1 "alice" (@hash toy_argon2 "s1" "p@ss1") "a@x.io".

Definition bob : Utilisateur :=
  mkUtilisateur 2 "bob" (@hash toy_argon2 "s2" "hunter2") "b@x.io".

Definition db_alice : Database := mkDatabase [alice] 1.
Definition db_alice_bob : Database := mkDatabase [alice; bob] 2.

Definition quiet (s : string) : Env := mkEnv s false false.

(** The row an update of [PUT /utilisateurs/:id] leaves: the supplied
    columns take the written values, the others keep theirs. *)
Definition updated `{Argon2} (env : Env) (body : Body.t) (r : Utilisateur)
  : Utilisateur :=
  let pick c := if supplied c body then written env body c else column_of c r in
  mkUtilisateur (id r) (pick Nomutilisateur) (pick Motdepasse) (pick Email).

Definition replace_row (i : Z) (r' : Utilisateur) (db : Database) : Database :=
  mkDatabase (map (fun x => if has_id i x then r' else x) (utilisateurs db))
             (sqlite_sequence db).

Definition some_supplied (body : Body.t) : bool :=
  supplied Nomutilisateur body || supplied Motdepasse body || supplied Email body.

Definition all_supplied (body : Body.t) : bool :=
  supplied Nomutilisateur body && supplied Motdepasse body && supplied Email body.

(** The table after the insertion of an account. *)
Definition inserted `{Argon2} (env : Env) (body : Body.t) (db : Database)
  : Database :=
  mkDatabase
    (utilisateurs db ++
     [mkUtilisateur (next_id db) (text (Body.nomutilisateur body))
        (hash (salt env) (text (Body.motdepasse body)))
        (text (Body.email body))])
    (next_id db).

(** The account a successful [POST /utilisateurs] answers with. *)
Definition created (body : Body.t) (db : Database) : JObject :=
  [ ("id", JNumber (next_id db));
    ("nomutilisateur", JString (text (Body.nomutilisateur body)));
    ("email", JString (text (Body.email body))) ].

(** The name or the address of the request is already in the table. *)
Definition conflicts (body : Body.t) (db : Database) : bool :=
  nom_taken (text (Body.nomutilisateur body)) (utilisateurs db)
  || email_taken (text (Body.email body)) (utilisateurs db).

Definition without (i : Z) (db : Database) : Database :=
  mkDatabase (filter (fun x => negb (has_id i x)) (utilisateurs db))
             (sqlite_sequence db).

(** Every stored token is the hash of a non-empty string. *)
Definition hashed `{Argon2} (db : Database) : Prop :=
  Forall (fun r => exists s plain, plain <> "" /\ motdepasse r = hash s plain)
         (utilisateurs db).

(** The value a request carries for a column. *)
Definition field (c : Column) (body : Body.t) : option string :=
  match c with
  | Nomutilisateur => Body.nomutilisateur body
  | Motdepasse => Body.motdepasse body
  | Email => Body.email body
  end.

(** The accounts a response carries: the document of a 2xx answer, or the
    members of its array. *)
Definition accounts (res : Response) : list JObject :=
  if (status res <? 300)%Z
  then match json res with
       | JObj o => [o]
       | JArr l => l
       end
  else [].

(** The [id] member of an account document. *)
Definition object_id (o : JObject) : Z :=
  match o with
  | (_, JNumber n) :: _ => n
  | _ => 0%Z
  end.

(** The number of rows with a given name, with a given address. *)
Definition count_nom (n : string) (db : Database) : nat :=
  List.length (filter (fun r => nomutilisateur r =? n) (utilisateurs db)).

Definition count_email (e : string) (db : Database) : nat :=
  List.length (filter (fun r => email r =? e) (utilisateurs db)).

(** The four things a request can do to the table: nothing, append an
    account, rewrite the row of an id, remove the row of an id. *)
Inductive step `{Argon2} (db : Database) : Database -> Prop :=
| step_none : step db db
| step_insert env body :
    all_supplied body = true -> conflicts body db = false ->
    step db (inserted env body db)
| step_update env body i r :
    find_id i db = Some r -> clashes i body db = false ->
    step db (replace_row i (updated env body r) db)
| step_delete i : step db (without i db).

(** Requests to run the model on. *)
Definition body_alice : Body.t := Body.mk (Some "alice") (Some "p@ss1") (Some "a@x.io").
Definition body_email : Body.t := Body.mk None None (Some "new@x").
Definition body_empty_email : Body.t := Body.mk None None (Some "").
Definition body_none : Body.t := Body.mk None None None.
Definition login (n candidate : string) : Body.t :=
  Body.mk (Some n) (Some candidate) None.

(** The frame of an update, for either handler: the row of [i] after the
    request, the columns that are not supplied, the columns that change, the
    rows of the other ids, and the columns when the answer is 200. *)
Definition frame_of_update `{Argon2} (env : Env) (db : Database) (i : Z) (body : Body.t)
    (r : Utilisateur) (out : Response * Database) (r' : Utilisateur) : Prop :=
  find_id i (snd out) = Some r' /\
  (forall c, supplied c body = false -> column_of c r' = column_of c r) /\
  (forall c, column_of c r' <> column_of c r ->
             supplied c body = true /\ column_of c r' = written env body c) /\
  (forall j, j <> i -> find_id j (snd out) = find_id j db) /\
  (status (fst out) = 200%Z ->
   forall c, supplied c body = true -> column_of c r' = written env body c).

(** The table after a sequence of requests, each with its environment. *)
Definition serve `{Argon2} (db : Database) (l : list (Env * Request)) : Database :=
  fold_left (fun d er => snd (handle (fst er) d (snd er))) l db.

(** The response of [src/index.ts] as the variant words it: the member
    [erreur] of a document is named [error]. *)
Definition rename_member (m : string * JValue) : string * JValue :=
  if fst m =? "erreur" then ("error", snd m) else m.

Definition as_variant (res : Response) : Response :=
  mkResponse (status res)
    match json res with
    | JObj o => JObj (map rename_member o)
    | JArr l => JArr (map (map rename_member) l)
    end.

Definition outcome_as_variant (out : Response * Database) : Response * Database :=
  (as_variant (fst out), snd out).

(** The request that supplies the name and the address a row already has. *)
Definition own_values (r : Utilisateur) : Body.t :=
  Body.mk (Some (nomutilisateur r)) None (Some (email r)).


(** The name of the row of [r] after an update by [body] that succeeds. *)
Definition name_after (body : Body.t) (r : Utilisateur) : string :=
  if supplied Nomutilisateur body
  then text (Body.nomutilisateur body)
  else nomutilisateur r.

Definition body_bob : Body.t := Body.mk (Some "bob") (Some "hunter2") (Some "b@x.io").
Definition body_secret : Body.t := Body.mk None (Some "n3w") None.

(** No document of a response has a member of the given name. *)
Definition no_member (name : string) (res : Response) : Prop :=
  match json res with
  | JObj o => ~ In name (keys o)
  | JArr l => Forall (fun o => ~ In name (keys o)) l
  end.

(** Another account of the table has the name or the address the request
    supplies. *)
Definition taken_by_another (i : Z) (body : Body.t) (db : Database) : Prop :=
  exists r2,
    In r2 (utilisateurs db) /\ id r2 <> i /\
    ((supplied Nomutilisateur body = true /\
      nomutilisateur r2 = text (Body.nomutilisateur body)) \/
     (supplied Email body = true /\
      email r2 = text (Body.email body))).

Definition body_full : Body.t :=
  Body.mk (Some "alicia") (Some "n3w") (Some "new@x").

(** The rows of a table sorted by [id], whatever their order in the list. *)
Fixpoint insert_by_id (r : Utilisateur) (l : list Utilisateur) : list Utilisateur :=
  match l with
  | [] => [r]
  | x :: l' => if (id r <=? id x)%Z then r :: l else x :: insert_by_id r l'
  end.

Definition sort_by_id (l : list Utilisateur) : list Utilisateur :=
  fold_right insert_by_id [] l.

Definition body_carol : Body.t :=
  Body.mk (Some "carol") (Some "s3cret") (Some "c@x.io").

(** * Lemmas on the table *)

Lemma has_id_true i r : has_id i r = true <-> id r = i.
Proof. unfold has_id. apply Z.eqb_eq. Qed.

Lemma find_id_id i db r : find_id i db = Some r -> id r = i.
Proof.
  unfold find_id. intros Hf. apply find_some in Hf.
  apply has_id_true, Hf.
Qed.

Lemma find_id_none i db :
  find_id i db = None <-> filter (has_id i) (utilisateurs db) = [].
Proof.
  unfold find_id. induction (utilisateurs db) as [|a l IH]; simpl.
  - tauto.
  - destruct (has_id i a); [split; discriminate | exact IH].
Qed.

(** Replacing the row of [i] by a row of the same id moves no other row. *)
Lemma find_replace i r' l j :
  id r' = i ->
  find (has_id j) (map (fun x => if has_id i x then r' else x) l) =
  if (j =? i)%Z
  then option_map (fun _ => r') (find (has_id i) l)
  else find (has_id j) l.
Proof.
  intros Hid. induction l as [|a l IH]; simpl.
  - destruct (j =? i)%Z; reflexivity.
  - destruct (has_id i a) eqn:Ha.
    + destruct (Z.eqb_spec j i) as [->|Hne].
      * unfold has_id at 1. rewrite Hid, Z.eqb_refl. reflexivity.
      * apply has_id_true in Ha.
        assert (has_id j r' = false) as -> by (apply Z.eqb_neq; lia).
        assert (has_id j a = false) as -> by (apply Z.eqb_neq; lia).
        rewrite IH. destruct (Z.eqb_spec j i); [contradiction | reflexivity].
    + destruct (Z.eqb_spec j i) as [->|Hne].
      * rewrite Ha. exact IH.
      * destruct (has_id j a); [reflexivity|].
        rewrite IH. destruct (Z.eqb_spec j i); [contradiction | reflexivity].
Qed.

Lemma filter_filter_neg i l :
  filter (has_id i) (filter (fun x => negb (has_id i x)) l) = [].
Proof.
  induction l as [|a l IH]; simpl; [reflexivity|].
  destruct (has_id i a) eqn:Hi; simpl; [exact IH | rewrite Hi; exact IH].
Qed.

Lemma filter_neg_absent i l :
  filter (has_id i) l = [] -> filter (fun x => negb (has_id i x)) l = l.
Proof.
  induction l as [|a l IH]; simpl; [reflexivity|].
  destruct (has_id i a); simpl; [discriminate | intros E; f_equal; auto].
Qed.

Lemma nom_taken_In n l : nom_taken n l = true <-> In n (map nomutilisateur l).
Proof.
  unfold nom_taken. rewrite existsb_exists, in_map_iff.
  split; intros [r [H1 H2]]; exists r.
  - apply String.eqb_eq in H2. tauto.
  - split; [tauto | apply String.eqb_eq; tauto].
Qed.

Lemma email_taken_In e l : email_taken e l = true <-> In e (map email l).
Proof.
  unfold email_taken. rewrite existsb_exists, in_map_iff.
  split; intros [r [H1 H2]]; exists r.
  - apply String.eqb_eq in H2. tauto.
  - split; [tauto | apply String.eqb_eq; tauto].
Qed.

Lemma not_taken_iff {b : bool} {P : Prop} : (b = true <-> P) -> b = false -> ~ P.
Proof. intros H Hb HP. apply H in HP. congruence. Qed.

Lemma truthy_text v : truthy v = true -> v = Some (text v) /\ text v <> "".
Proof.
  destruct v as [s|]; simpl; [|discriminate].
  destruct (String.eqb_spec s ""); simpl; [discriminate | auto].
Qed.


(** * The handlers as decision tables *)

Section Tables.
Context `{Argon2}.

Ltac cases_supplied body :=
  destruct body as [n m e]; unfold some_supplied, all_supplied, supplied; simpl;
  destruct (truthy n) eqn:Hn; destruct (truthy m) eqn:Hm;
  destruct (truthy e) eqn:He; simpl.

Lemma put_table env db i body :
  Index.put_utilisateur env db i body =
  if negb (some_supplied body) then
    (Index.erreur 400
       "Au moins un champ doit être fourni (nomutilisateur, motdepasse, ou email)",
     db)
  else if (supplied Motdepasse body && hasher_fault env) || store_fault env then
    (Index.erreur 400 "Erreur lors de la mise à jour de l'utilisateur", db)
  else
    match find_id i db with
    | None => (Index.erreur 404 "Utilisateur non trouvé", db)
    | Some r =>
        if clashes i body db
        then (Index.erreur 400 "Erreur lors de la mise à jour de l'utilisateur", db)
        else (Index.message 200 "Utilisateur mis à jour avec succès",
              replace_row i (updated env body r) db)
    end.
Proof.
  unfold Index.put_utilisateur, Index.updates, Index.spread, argon2_hash, run,
    clashes, updated, replace_row, written.
  cases_supplied body; try reflexivity;
    destruct (hasher_fault env); simpl; try reflexivity;
    destruct (store_fault env); simpl; try reflexivity;
    unfold update_utilisateur, violates_unique;
    destruct (find_id i db) as [r|]; simpl; try reflexivity;
    rewrite ?andb_false_r, ?orb_false_r; simpl;
    repeat match goal with
           | |- context [if ?b then _ else _] => destruct b; simpl
           end; reflexivity.
Qed.

Lemma variant_put_table env db i body :
  Variant.put_utilisateur env db i body =
  if negb (all_supplied body) then
    (Variant.error 400 "Tous les champs sont requis", db)
  else if hasher_fault env || store_fault env then
    (Variant.error 400 "Erreur lors de la mise à jour de l'utilisateur", db)
  else
    match find_id i db with
    | None => (Variant.error 404 "Utilisateur non trouvé", db)
    | Some r =>
        if clashes i body db
        then (Variant.error 400 "Erreur lors de la mise à jour de l'utilisateur", db)
        else (Variant.message 200 "Utilisateur mis à jour avec succès",
              replace_row i (updated env body r) db)
    end.
Proof.
  unfold Variant.put_utilisateur, Variant.validateUserInput, argon2_hash, run,
    clashes, updated, replace_row, written.
  cases_supplied body; try reflexivity;
    destruct (hasher_fault env); simpl; try reflexivity;
    destruct (store_fault env); simpl; try reflexivity;
    unfold update_utilisateur, violates_unique;
    destruct (find_id i db) as [r|]; simpl; try reflexivity;
    repeat match goal with
           | |- context [if ?b then _ else _] => destruct b; simpl
           end; reflexivity.
Qed.

Lemma post_table env db body :
  Index.post_utilisateurs env db body =
  if negb (all_supplied body) then
    (Index.erreur 400 "Tous les champs sont requis", db)
  else if hasher_fault env || store_fault env || conflicts body db then
    (Index.erreur 400 "Erreur lors de la création de l'utilisateur", db)
  else (mkResponse 201 (JObj (created body db)), inserted env body db).
Proof.
  unfold Index.post_utilisateurs, Index.validateUserInput, argon2_hash, run,
    insert_utilisateur, conflicts, created, inserted.
  cases_supplied body; try reflexivity;
    destruct (hasher_fault env); simpl; try reflexivity;
    destruct (store_fault env); simpl; try reflexivity;
    match goal with
    | |- context [if ?b then _ else _] => destruct b; reflexivity
    end.
Qed.

Lemma variant_post_table env db body :
  Variant.post_utilisateurs env db body =
  if negb (all_supplied body) then
    (Variant.error 400 "Tous les champs sont requis", db)
  else if hasher_fault env || store_fault env || conflicts body db then
    (Variant.error 400 "Erreur lors de la création de l'utilisateur", db)
  else (mkResponse 201 (JObj (created body db)), inserted env body db).
Proof.
  unfold Variant.post_utilisateurs, Variant.validateUserInput, argon2_hash, run,
    insert_utilisateur, conflicts, created, inserted.
  cases_supplied body; try reflexivity;
    destruct (hasher_fault env); simpl; try reflexivity;
    destruct (store_fault env); simpl; try reflexivity;
    match goal with
    | |- context [if ?b then _ else _] => destruct b; reflexivity
    end.
Qed.

Lemma delete_table env db i :
  Index.delete_utilisateur_route env db i =
  if store_fault env then
    (Index.erreur 500 "Erreur lors de la suppression de l'utilisateur", db)
  else
    match find_id i db with
    | None => (Index.erreur 404 "Utilisateur non trouvé", db)
    | Some _ =>
        (Index.message 200 "Utilisateur supprimé avec succès", without i db)
    end.
Proof.
  unfold Index.delete_utilisateur_route, run, delete_utilisateur, without.
  destruct (store_fault env); [reflexivity|].
  destruct (find_id i db) as [r|] eqn:Hf.
  - unfold find_id in Hf. apply find_some in Hf. destruct Hf as [Hin Hr].
    destruct (filter (has_id i) (utilisateurs db)) eqn:Hfl.
    + assert (In r (filter (has_id i) (utilisateurs db)))
        by (apply filter_In; auto).
      rewrite Hfl in *. contradiction.
    + reflexivity.
  - apply find_id_none in Hf. rewrite Hf. simpl.
    rewrite (filter_neg_absent _ _ Hf). destruct db; reflexivity.
Qed.

Lemma variant_delete_table env db i :
  Variant.delete_utilisateur_route env db i =
  if store_fault env then
    (Variant.error 500 "Erreur lors de la suppression de l'utilisateur", db)
  else
    match find_id i db with
    | None => (Variant.error 404 "Utilisateur non trouvé", db)
    | Some _ =>
        (Variant.message 200 "Utilisateur supprimé avec succès", without i db)
    end.
Proof.
  unfold Variant.delete_utilisateur_route, run, delete_utilisateur, without.
  destruct (store_fault env); [reflexivity|].
  destruct (find_id i db) as [r|] eqn:Hf.
  - unfold find_id in Hf. apply find_some in Hf. destruct Hf as [Hin Hr].
    destruct (filter (has_id i) (utilisateurs db)) eqn:Hfl.
    + assert (In r (filter (has_id i) (utilisateurs db)))
        by (apply filter_In; auto).
      rewrite Hfl in *. contradiction.
    + reflexivity.
  - apply find_id_none in Hf. rewrite Hf. simpl.
    rewrite (filter_neg_absent _ _ Hf). destruct db; reflexivity.
Qed.
End Tables.

(** * The invariant of the table *)

Lemma sorted_NoDup (l : list Z) : StronglySorted Z.lt l -> NoDup l.
Proof.
  induction 1 as [|a l Hs IH Hall]; constructor; [|exact IH].
  intros Hin. rewrite Forall_forall in Hall. specialize (Hall a Hin). lia.
Qed.

Lemma sorted_snoc (l : list Z) (x : Z) :
  StronglySorted Z.lt l -> Forall (fun k => (k < x)%Z) l ->
  StronglySorted Z.lt (l ++ [x]).
Proof.
  induction 1 as [|a l Hs IH Hall]; intros Hlt; simpl.
  - constructor; constructor.
  - inversion Hlt; subst. constructor; [auto|].
    apply Forall_app. split; [exact Hall | constructor; [assumption | constructor]].
Qed.

Section Keys.
Context {K : Type} (key : Utilisateur -> K) (f : Utilisateur -> bool).

Lemma In_key_filter k l : In k (map key (filter f l)) -> In k (map key l).
Proof.
  rewrite !in_map_iff. intros [r [Hk Hin]]. exists r.
  apply filter_In in Hin. tauto.
Qed.

Lemma NoDup_key_filter l : NoDup (map key l) -> NoDup (map key (filter f l)).
Proof.
  induction l as [|a l IH]; simpl; intros Hnd; [constructor|].
  inversion Hnd; subst. destruct (f a); simpl; [|auto].
  constructor; [|auto]. intros Hin. apply In_key_filter in Hin. contradiction.
Qed.
End Keys.

Lemma sorted_filter f (l : list Utilisateur) :
  StronglySorted Z.lt (map id l) -> StronglySorted Z.lt (map id (filter f l)).
Proof.
  induction l as [|a l IH]; simpl; intros Hs; [constructor|].
  apply StronglySorted_inv in Hs. destruct Hs as [Hs Hall].
  destruct (f a); simpl; [|auto].
  constructor; [auto|].
  rewrite Forall_forall in *. intros k Hk. apply Hall.
  eapply In_key_filter; eassumption.
Qed.

Lemma absent_untouched i (l : list Utilisateur) :
  ~ In i (map id l) ->
  filter (fun x => negb (has_id i x)) l = l /\
  forall r', map (fun x => if has_id i x then r' else x) l = l.
Proof.
  induction l as [|a l IH]; simpl; intros Hni; [auto|].
  assert (Ha : has_id i a = false) by (apply Z.eqb_neq; intros E; apply Hni; auto).
  rewrite Ha. simpl. destruct IH as [IH1 IH2]; [tauto|].
  split; [f_equal; exact IH1 | intros r'; f_equal; apply IH2].
Qed.

(** A row found by its id splits the table around it. *)
Lemma find_split i r (l : list Utilisateur) :
  find (has_id i) l = Some r -> NoDup (map id l) ->
  exists l1 l2,
    l = (l1 ++ r :: l2)%list /\ id r = i /\
    filter (fun x => negb (has_id i x)) l = (l1 ++ l2)%list /\
    forall r', map (fun x => if has_id i x then r' else x) l = (l1 ++ r' :: l2)%list.
Proof.
  induction l as [|a l IH]; simpl; [discriminate|].
  intros Hf Hnd. inversion Hnd as [|? ? Hni Hnd']; subst.
  destruct (has_id i a) eqn:Ha.
  - injection Hf as ->. apply has_id_true in Ha. subst i.
    destruct (absent_untouched _ _ Hni) as [E1 E2].
    exists [], l. simpl. repeat split; auto. intros r'. f_equal. apply E2.
  - destruct (IH Hf Hnd') as (l1 & l2 & El & Hid & Efl & Emap).
    exists (a :: l1), l2. simpl. repeat split; auto.
    + f_equal. exact El.
    + f_equal. exact Efl.
    + intros r'. f_equal. apply Emap.
Qed.

Lemma wf_empty : wf empty_db.
Proof. split; simpl; constructor. Qed.

Lemma max_id_bound l : Forall (fun r => (id r <= max_id l)%Z) l /\ (0 <= max_id l)%Z.
Proof.
  induction l as [|a l [IH1 IH2]]; simpl; [split; [constructor | lia]|].
  split; [|lia]. constructor; [lia|].
  eapply Forall_impl; [|exact IH1]. simpl. intros; lia.
Qed.

Section Invariant.
Context `{Argon2}.

Lemma wf_inserted env body db :
  wf db -> all_supplied body = true -> conflicts body db = false ->
  wf (inserted env body db).
Proof.
  intros [Hs Hq Hn He Ht] Hall Hc.
  unfold all_supplied, supplied in Hall.
  apply andb_true_iff in Hall. destruct Hall as [Hall H3].
  apply andb_true_iff in Hall. destruct Hall as [H1 H2].
  unfold conflicts in Hc. apply orb_false_iff in Hc. destruct Hc as [Hc1 Hc2].
  assert (Hnext : (sqlite_sequence db < next_id db)%Z) by (unfold next_id; lia).
  split; unfold inserted; simpl.
  - rewrite map_app. simpl. apply sorted_snoc; [exact Hs|].
    rewrite Forall_map. eapply Forall_impl; [|exact Hq]. simpl. intros; lia.
  - apply Forall_app. split.
    + eapply Forall_impl; [|exact Hq]. simpl. intros; lia.
    + constructor; [simpl; pose proof (proj2 (max_id_bound (utilisateurs db)));
                    unfold next_id; lia | constructor].
  - rewrite map_app. simpl. apply NoDup_app; [exact Hn | repeat constructor; auto |].
    intros a Ha [<-|[]]. revert Ha. apply (not_taken_iff (nom_taken_In _ _) Hc1).
  - rewrite map_app. simpl. apply NoDup_app; [exact He | repeat constructor; auto |].
    intros a Ha [<-|[]]. revert Ha. apply (not_taken_iff (email_taken_In _ _) Hc2).
  - apply Forall_app. split; [exact Ht|].
    constructor; [|constructor]. simpl.
    split; [apply (truthy_text _ H1) | apply (truthy_text _ H3)].
Qed.

Lemma wf_without i db : wf db -> wf (without i db).
Proof.
  intros [Hs Hq Hn He Ht]. split; unfold without; simpl.
  - apply sorted_filter, Hs.
  - rewrite Forall_forall in *. intros r Hr. apply Hq. apply filter_In in Hr. tauto.
  - apply NoDup_key_filter, Hn.
  - apply NoDup_key_filter, He.
  - rewrite Forall_forall in *. intros r Hr. apply Ht. apply filter_In in Hr. tauto.
Qed.

Lemma wf_replaced env body i r db :
  wf db -> find_id i db = Some r -> clashes i body db = false ->
  wf (replace_row i (updated env body r) db).
Proof.
  intros [Hs Hq Hn He Ht] Hf Hc.
  destruct (find_split _ _ _ Hf (sorted_NoDup _ Hs))
    as (l1 & l2 & El & Hid & Efl & Emap).
  unfold clashes in Hc. rewrite Efl in Hc.
  apply orb_false_iff in Hc. destruct Hc as [Hc1 Hc2].
  rewrite El in Hs, Hq, Hn, He, Ht.
  rewrite map_app in Hs, Hn, He. simpl in Hs, Hn, He.
  apply Forall_app in Hq. destruct Hq as [Hq1 Hq2]. inversion Hq2; subst.
  apply Forall_app in Ht. destruct Ht as [Ht1 Ht2].
  inversion Ht2 as [|? ? [Htn Hte] Ht2']; subst.
  split; unfold replace_row; simpl; rewrite Emap.
  - rewrite map_app. simpl. exact Hs.
  - apply Forall_app. split; [assumption | constructor; assumption].
  - rewrite map_app. simpl.
    apply (NoDup_Add (Add_app _ _ _)). apply NoDup_remove in Hn.
    split; [tauto|]. rewrite <- map_app. unfold supplied, written. simpl.
    destruct (truthy (Body.nomutilisateur body)); simpl in *.
    + apply (not_taken_iff (nom_taken_In _ _) Hc1).
    + rewrite map_app. tauto.
  - rewrite map_app. simpl.
    apply (NoDup_Add (Add_app _ _ _)). apply NoDup_remove in He.
    split; [tauto|]. rewrite <- map_app. unfold supplied, written. simpl.
    destruct (truthy (Body.email body)); simpl in *.
    + apply (not_taken_iff (email_taken_In _ _) Hc2).
    + rewrite map_app. tauto.
  - apply Forall_app. split; [assumption|]. constructor; [|assumption].
    unfold supplied, written. simpl. split.
    + destruct (truthy (Body.nomutilisateur body)) eqn:E;
        [apply (truthy_text _ E) | exact Htn].
    + destruct (truthy (Body.email body)) eqn:E;
        [apply (truthy_text _ E) | exact Hte].
Qed.
End Invariant.

(** * What a request does to the table *)

Section Steps.
Context `{Argon2}.

Lemma handle_step env db req : step db (snd (handle env db req)).
Proof.
  destruct req as [body| |i|i body|i|body]; simpl.
  - rewrite post_table.
    destruct (all_supplied body) eqn:Ha; [|constructor].
    cbn [negb].
    destruct (hasher_fault env || store_fault env || conflicts body db) eqn:Hc;
      [constructor|].
    apply orb_false_iff in Hc. apply step_insert; tauto.
  - unfold Index.get_utilisateurs, run, select_all.
    destruct (store_fault env); constructor.
  - unfold Index.get_utilisateur, run, select_by_id.
    destruct (store_fault env); [constructor|].
    destruct (find_id i db); constructor.
  - rewrite put_table.
    destruct (negb (some_supplied body)); [constructor|].
    destruct (supplied Motdepasse body && hasher_fault env || store_fault env);
      [constructor|].
    destruct (find_id i db) as [r|] eqn:Hf; [|constructor].
    destruct (clashes i body db) eqn:Hc; [constructor|].
    apply step_update; assumption.
  - rewrite delete_table.
    destruct (store_fault env); [constructor|].
    destruct (find_id i db); constructor.
  - unfold Index.post_verifier_motdepasse, run, select_motdepasse, argon2_verify.
    destruct (negb (truthy (Body.nomutilisateur body))
              || negb (truthy (Body.motdepasse body))); [constructor|].
    destruct (store_fault env); [constructor|].
    destruct (find_nom (text (Body.nomutilisateur body)) db) as [r|]; simpl;
      [|constructor].
    destruct (verify (motdepasse r) (text (Body.motdepasse body))) as [[|]|];
      constructor.
Qed.

Lemma step_wf db db' : step db db' -> wf db -> wf db'.
Proof.
  destruct 1; intros Hwf.
  - exact Hwf.
  - apply wf_inserted; assumption.
  - apply wf_replaced; assumption.
  - apply wf_without; assumption.
Qed.

Lemma step_hashed db db' : step db db' -> wf db -> hashed db -> hashed db'.
Proof.
  unfold hashed. destruct 1 as [|env body Ha Hc|env body i r Hf Hc|i];
    intros Hwf Hh.
  - exact Hh.
  - simpl. apply Forall_app. split; [exact Hh|].
    constructor; [|constructor]. simpl.
    exists (salt env), (text (Body.motdepasse body)). split; [|reflexivity].
    unfold all_supplied, supplied in Ha.
    apply andb_true_iff in Ha. destruct Ha as [Ha _].
    apply andb_true_iff in Ha. destruct Ha as [_ Ha].
    apply (truthy_text _ Ha).
  - destruct (find_split _ _ _ Hf (sorted_NoDup _ (wf_sorted _ Hwf)))
      as (l1 & l2 & El & Hid & Efl & Emap).
    simpl. rewrite Emap. rewrite El in Hh.
    apply Forall_app in Hh. destruct Hh as [Hh1 Hh2]. inversion Hh2; subst.
    apply Forall_app. split; [assumption|]. constructor; [|assumption].
    unfold updated, supplied, written. simpl.
    destruct (truthy (Body.motdepasse body)) eqn:E; [|assumption].
    exists (salt env), (text (Body.motdepasse body)).
    split; [apply (truthy_text _ E) | reflexivity].
  - simpl. rewrite Forall_forall in *. intros r Hr. apply Hh.
    apply filter_In in Hr. tauto.
Qed.

Lemma reachable_sound db : reachable db -> wf db /\ hashed db.
Proof.
  induction 1 as [|env db req Hr [IHw IHh]].
  - split; [apply wf_empty | constructor].
  - pose proof (handle_step env db req) as Hs.
    split; [eapply step_wf | eapply step_hashed]; eassumption.
Qed.
End Steps.

(** * The update of an account *)

Section Update.
Context `{Argon2}.

Lemma updates_written env body sets :
  Index.updates env body = Val sets ->
  sets = map (fun c => (c, written env body c)) (supplied_set body).
Proof.
  unfold Index.updates, Index.spread, argon2_hash, supplied_set, written.
  destruct body as [n m e]. simpl.
  destruct (truthy n), (truthy m), (truthy e), (hasher_fault env); simpl;
    intros E; try discriminate; injection E as <-; reflexivity.
Qed.

Lemma updated_column env body r c :
  column_of c (updated env body r) =
  if supplied c body then written env body c else column_of c r.
Proof. destruct c; reflexivity. Qed.

Lemma find_replace_row i r' db j :
  id r' = i ->
  find_id j (replace_row i r' db) =
  if (j =? i)%Z then option_map (fun _ => r') (find_id i db) else find_id j db.
Proof. intros Hid. unfold find_id, replace_row. simpl. apply find_replace, Hid. Qed.

Lemma frame_unchanged env db i body r res :
  find_id i db = Some r -> status res <> 200%Z ->
  frame_of_update env db i body r (res, db) r.
Proof.
  intros Hf Hs. unfold frame_of_update. cbn [fst snd].
  repeat split; auto; try contradiction.
Qed.

Lemma frame_replaced env db i body r res :
  find_id i db = Some r ->
  frame_of_update env db i body r
    (res, replace_row i (updated env body r) db) (updated env body r).
Proof.
  intros Hf. pose proof (find_id_id _ _ _ Hf) as Hid.
  unfold frame_of_update. cbn [fst snd].
  split; [|split; [|split; [|split]]].
  - rewrite find_replace_row, Z.eqb_refl, Hf; [reflexivity | exact Hid].
  - intros c Hc. rewrite updated_column, Hc. reflexivity.
  - intros c. rewrite updated_column.
    destruct (supplied c body); [auto | intros Hne; contradiction].
  - intros j Hj. rewrite find_replace_row by exact Hid.
    destruct (Z.eqb_spec j i); [contradiction | reflexivity].
  - intros _ c Hc. rewrite updated_column, Hc. reflexivity.
Qed.

(** C1, as the code has it.  On [PUT /utilisateurs/:id] for an existing id,
    only the supplied fields (present and not empty) change in the stored
    account: a column that is not supplied keeps its value, a column that
    changes takes the value written for it (the hash of the secret for
    [motdepasse]), the rows of the other ids are untouched, and when the
    answer is 200 every supplied column holds the value written.  In
    [src/index.ts] the assignments of the UPDATE statement are exactly those
    of the supplied field set, and a request that supplies at least one
    field is answered 200 when no fault strikes and no other account holds
    the supplied name or address.  The variant obeys the same frame, but it
    updates only for a request that supplies the three fields: such a
    request is answered 200 when no fault strikes and no other account holds
    the name or the address, and its UPDATE assigns the three columns; a
    request that supplies fewer is answered with the validation failure and
    nothing is written. *)
Theorem put_changes_only_supplied env db i body r :
  find_id i db = Some r ->
  some_supplied body = true ->
  (exists r',
      frame_of_update env db i body r (Index.put_utilisateur env db i body) r') /\
  (forall sets, Index.updates env body = Val sets ->
                sets = map (fun c => (c, written env body c)) (supplied_set body)) /\
  (fault_free env -> clashes i body db = false ->
   status (fst (Index.put_utilisateur env db i body)) = 200%Z) /\
  (exists r',
      frame_of_update env db i body r (Variant.put_utilisateur env db i body) r') /\
  (all_supplied body = true ->
   supplied_set body = [Nomutilisateur; Motdepasse; Email]) /\
  (all_supplied body = true -> fault_free env -> clashes i body db = false ->
   status (fst (Variant.put_utilisateur env db i body)) = 200%Z) /\
  (all_supplied body = false ->
   Variant.put_utilisateur env db i body =
     (Variant.error 400 "Tous les champs sont requis", db)).
Proof.
  intros Hf Hs. rewrite put_table, variant_put_table, Hs, Hf. cbn [negb].
  split; [|split; [|split; [|split; [|split; [|split]]]]].
  - destruct (supplied Motdepasse body && hasher_fault env || store_fault env);
      [|destruct (clashes i body db)];
      eexists; try (apply frame_unchanged; [exact Hf | discriminate]).
    apply frame_replaced, Hf.
  - apply updates_written.
  - intros [Hh Hst] Hc. rewrite Hh, Hst, Hc, andb_false_r. reflexivity.
  - destruct (all_supplied body); cbn [negb];
      [destruct (hasher_fault env || store_fault env);
       [|destruct (clashes i body db)]|];
      eexists; try (apply frame_unchanged; [exact Hf | discriminate]).
    apply frame_replaced, Hf.
  - unfold all_supplied, supplied_set. cbn [filter].
    destruct (supplied Nomutilisateur body), (supplied Motdepasse body),
      (supplied Email body); try discriminate. reflexivity.
  - intros -> [Hh Hst] Hc. rewrite Hh, Hst, Hc. reflexivity.
  - intros ->. reflexivity.
Qed.
End Update.

(** * Validation of an update, and the empty string *)

Section Validation.
Context `{Argon2}.

Lemma supplied_with_empty c body c' :
  supplied c' (with_field c (Some "") body) = supplied c' (with_field c None body).
Proof. destruct c, c'; reflexivity. Qed.

Lemma updated_with_empty env c body r :
  updated env (with_field c (Some "") body) r = updated env (with_field c None body) r.
Proof. destruct c, body as [n m e]; reflexivity. Qed.

Lemma clashes_with_empty i c body db :
  clashes i (with_field c (Some "") body) db = clashes i (with_field c None body) db.
Proof. destruct c, body as [n m e]; reflexivity. Qed.

(** C7, as the code has it.  In [src/index.ts] the update answers the
    validation failure exactly when none of the three fields is supplied
    (each is absent or empty); it answers 404 only for a request that
    supplies a field and an id that is not in the table, and always then
    when no fault strikes.  In the variant, which runs [validateUserInput]
    first, the update answers the validation failure exactly when one of the
    three fields is not supplied; it answers 404 only for a request that
    supplies the three fields and an id that is not in the table, and always
    then when no fault strikes. *)
Theorem put_validation_and_not_found env db i body :
  (fst (Index.put_utilisateur env db i body) =
     Index.erreur 400
       "Au moins un champ doit être fourni (nomutilisateur, motdepasse, ou email)"
   <-> some_supplied body = false) /\
  (status (fst (Index.put_utilisateur env db i body)) = 404%Z ->
   some_supplied body = true /\ find_id i db = None) /\
  (some_supplied body = true -> fault_free env -> find_id i db = None ->
   status (fst (Index.put_utilisateur env db i body)) = 404%Z) /\
  (fst (Variant.put_utilisateur env db i body) =
     Variant.error 400 "Tous les champs sont requis"
   <-> all_supplied body = false) /\
  (status (fst (Variant.put_utilisateur env db i body)) = 404%Z ->
   all_supplied body = true /\ find_id i db = None) /\
  (all_supplied body = true -> fault_free env -> find_id i db = None ->
   status (fst (Variant.put_utilisateur env db i body)) = 404%Z).
Proof.
  rewrite put_table, variant_put_table. unfold fault_free.
  destruct (some_supplied body), (all_supplied body),
    (supplied Motdepasse body), (hasher_fault env), (store_fault env),
    (find_id i db), (clashes i body db); cbn;
    repeat split; intros; try discriminate; try tauto;
    repeat match goal with
           | Hc : _ /\ _ |- _ => destruct Hc
           end; discriminate.
Qed.

(** C10. On [PUT /utilisateurs/:id] a field given as the empty string is
    treated as if it were absent: the answer and the table left are those of
    the request without the field, the UPDATE statement does not assign the
    column, the stored value of the column is kept, and a request whose
    fields are all absent or empty gets the validation failure of the
    request without any field. *)
Theorem put_empty_field_is_absent env db i body c :
  Index.put_utilisateur env db i (with_field c (Some "") body) =
    Index.put_utilisateur env db i (with_field c None body) /\
  (forall sets,
      Index.updates env (with_field c (Some "") body) = Val sets ->
      assigns c sets = false) /\
  (forall r,
      find_id i db = Some r ->
      exists r',
        find_id i (snd (Index.put_utilisateur env db i (with_field c (Some "") body)))
          = Some r' /\
        column_of c r' = column_of c r) /\
  ((forall c', field c' body = None \/ field c' body = Some "") ->
   Index.put_utilisateur env db i body =
     Index.put_utilisateur env db i (Body.mk None None None) /\
   Index.put_utilisateur env db i body =
     (Index.erreur 400
        "Au moins un champ doit être fourni (nomutilisateur, motdepasse, ou email)",
      db)).
Proof.
  split; [|split; [|split]].
  - rewrite !put_table. unfold some_supplied.
    rewrite !supplied_with_empty, clashes_with_empty.
    destruct (find_id i db); [rewrite updated_with_empty|]; reflexivity.
  - intros sets Hs. apply updates_written in Hs. subst sets.
    unfold supplied_set. destruct c, body as [n m e]; simpl;
      destruct (truthy n), (truthy m), (truthy e); reflexivity.
  - intros r Hf. rewrite put_table, Hf.
    pose proof (find_id_id _ _ _ Hf) as Hid.
    repeat match goal with
           | |- context [if ?b then _ else _] => destruct b
           end; cbn [snd]; try (exists r; split; [exact Hf | reflexivity]).
    exists (updated env (with_field c (Some "") body) r). split.
    + rewrite find_replace_row, Z.eqb_refl, Hf; [reflexivity | exact Hid].
    + rewrite updated_column.
      assert (supplied c (with_field c (Some "") body) = false) as ->
          by (destruct c; reflexivity).
      reflexivity.
  - intros Hall. rewrite !put_table.
    assert (Hs : some_supplied body = false).
    { unfold some_supplied, supplied.
      destruct (Hall Nomutilisateur) as [E1|E1], (Hall Motdepasse) as [E2|E2],
        (Hall Email) as [E3|E3]; simpl in E1, E2, E3; rewrite E1, E2, E3;
        reflexivity. }
    rewrite Hs. split; reflexivity.
Qed.

(** The variant treats the empty string in the same way. *)
Lemma variant_put_empty_field_is_absent env db i body c :
  Variant.put_utilisateur env db i (with_field c (Some "") body) =
  Variant.put_utilisateur env db i (with_field c None body).
Proof.
  rewrite !variant_put_table. unfold all_supplied.
  rewrite !supplied_with_empty, clashes_with_empty.
  destruct (find_id i db); [rewrite updated_with_empty|]; reflexivity.
Qed.
End Validation.

(** * Failures and deletion *)

Section Failures.
Context `{Argon2}.

Ltac split_ifs :=
  repeat match goal with
         | |- context [if ?b then _ else _] => destruct b
         | |- context [match ?o with Some _ => _ | None => _ end] => destruct o
         end.

(** C5. A request that is answered with a failure (a status of 400 or more:
    validation, conflict, unknown id, fault of the hasher or of the
    database) leaves the table as it was. *)
Theorem failed_request_leaves_store env db req :
  (400 <= status (fst (handle env db req)))%Z ->
  snd (handle env db req) = db.
Proof.
  destruct req as [body| |i|i body|i|body]; simpl.
  - rewrite post_table. split_ifs; cbn; intros; try reflexivity; lia.
  - unfold Index.get_utilisateurs, run, select_all. split_ifs; reflexivity.
  - unfold Index.get_utilisateur, run, select_by_id.
    destruct (store_fault env); [reflexivity|].
    destruct (find_id i db); reflexivity.
  - rewrite put_table. split_ifs; cbn; intros; try reflexivity; lia.
  - rewrite delete_table. split_ifs; cbn; intros; try reflexivity; lia.
  - unfold Index.post_verifier_motdepasse, run, select_motdepasse, argon2_verify.
    destruct (negb (truthy (Body.nomutilisateur body))
              || negb (truthy (Body.motdepasse body))); [reflexivity|].
    destruct (store_fault env); [reflexivity|].
    destruct (find_nom (text (Body.nomutilisateur body)) db) as [r|]; simpl;
      [|reflexivity].
    destruct (verify (motdepasse r) (text (Body.motdepasse body))) as [[|]|];
      reflexivity.
Qed.

(** The same holds of the three writing routes of the variant. *)
Lemma variant_failed_request_leaves_store env db i body :
  ((400 <= status (fst (Variant.post_utilisateurs env db body)))%Z ->
   snd (Variant.post_utilisateurs env db body) = db) /\
  ((400 <= status (fst (Variant.put_utilisateur env db i body)))%Z ->
   snd (Variant.put_utilisateur env db i body) = db) /\
  ((400 <= status (fst (Variant.delete_utilisateur_route env db i)))%Z ->
   snd (Variant.delete_utilisateur_route env db i) = db).
Proof.
  rewrite variant_post_table, variant_put_table, variant_delete_table.
  repeat split; split_ifs; cbn; intros; try reflexivity; lia.
Qed.

Lemma find_id_without i db : find_id i (without i db) = None.
Proof. apply find_id_none. unfold without. simpl. apply filter_filter_neg. Qed.


(** The variant deletes in the same way. *)
Lemma variant_delete_twice env1 env2 db i :
  store_fault env1 = false ->
  store_fault env2 = false ->
  (find_id i db <> None ->
   fst (Variant.delete_utilisateur_route env1 db i) =
     Variant.message 200 "Utilisateur supprimé avec succès" /\
   fst (Variant.delete_utilisateur_route env2
          (snd (Variant.delete_utilisateur_route env1 db i)) i) =
     Variant.error 404 "Utilisateur non trouvé") /\
  (fst (Variant.delete_utilisateur_route env1 db i) =
     Variant.error 404 "Utilisateur non trouvé"
   <-> find_id i db = None).
Proof.
  intros H1 H2. rewrite !variant_delete_table, H1, H2.
  destruct (find_id i db) as [r|] eqn:Hf; cbn [fst snd].
  - rewrite find_id_without.
    repeat split; try reflexivity; intros; discriminate.
  - repeat split; try reflexivity; intros; congruence.
Qed.
End Failures.

(** * Creation, listing and the accounts returned *)

Section StringKeys.
Context (key : Utilisateur -> string).

Lemma filter_key_absent k l :
  ~ In k (map key l) -> filter (fun r => key r =? k) l = [].
Proof.
  induction l as [|a l IH]; simpl; intros Hni; [reflexivity|].
  destruct (String.eqb_spec (key a) k) as [E|E]; [exfalso; auto|].
  apply IH. tauto.
Qed.

Lemma count_key_unique k l :
  NoDup (map key l) -> In k (map key l) ->
  List.length (filter (fun r => key r =? k) l) = 1%nat.
Proof.
  induction l as [|a l IH]; simpl; intros Hnd Hin; [contradiction|].
  inversion Hnd as [|? ? Hni Hnd']; subst.
  destruct (String.eqb_spec (key a) k) as [E|E].
  - subst k. rewrite (filter_key_absent _ _ Hni). reflexivity.
  - apply IH; [exact Hnd' | tauto].
Qed.

Lemma find_key_unique r l :
  NoDup (map key l) -> In r l -> find (fun x => key x =? key r) l = Some r.
Proof.
  induction l as [|a l IH]; simpl; intros Hnd Hin; [contradiction|].
  inversion Hnd as [|? ? Hni Hnd']; subst.
  destruct Hin as [->|Hin].
  - rewrite String.eqb_refl. reflexivity.
  - destruct (String.eqb_spec (key a) (key r)) as [E|E]; [|auto].
    exfalso. apply Hni. rewrite E. apply in_map, Hin.
Qed.
End StringKeys.

Section Accounts.
Context `{Argon2}.

Lemma object_id_public_row l : map object_id (map public_row l) = map id l.
Proof. rewrite map_map. reflexivity. Qed.

(** C3. Every account a response of [POST /utilisateurs], [GET /utilisateurs]
    or [GET /utilisateurs/:id] carries has the members [id],
    [nomutilisateur] and [email] and no others; [motdepasse] is not among
    them. *)
Theorem returned_accounts_omit_motdepasse env db body i o :
  In o (accounts (fst (Index.post_utilisateurs env db body))) \/
  In o (accounts (fst (Index.get_utilisateurs env db))) \/
  In o (accounts (fst (Index.get_utilisateur env db i))) ->
  keys o = ["id"; "nomutilisateur"; "email"] /\ ~ In "motdepasse" (keys o).
Proof.
  intros Hin.
  assert (Hk : keys o = ["id"; "nomutilisateur"; "email"]).
  { destruct Hin as [Hin|[Hin|Hin]]; revert Hin.
    - rewrite post_table.
      destruct (negb (all_supplied body)); [intros []|].
      destruct (hasher_fault env || store_fault env || conflicts body db);
        [intros []|].
      intros [<-|[]]. reflexivity.
    - unfold Index.get_utilisateurs, run, select_all.
      destruct (store_fault env); [intros []|].
      unfold accounts. simpl. rewrite in_map_iff. intros [r [<- _]]. reflexivity.
    - unfold Index.get_utilisateur, run, select_by_id.
      destruct (store_fault env); [intros []|].
      destruct (find_id i db) as [r|]; [|intros []].
      intros [<-|[]]. reflexivity. }
  split; [exact Hk|]. rewrite Hk. simpl.
  intros [E|[E|[E|[]]]]; discriminate.
Qed.

(** The variant answers with the same documents. *)
Lemma variant_returned_accounts_omit_motdepasse env db body i o :
  In o (accounts (fst (Variant.post_utilisateurs env db body))) \/
  In o (accounts (fst (Variant.get_utilisateurs env db))) \/
  In o (accounts (fst (Variant.get_utilisateur env db i))) ->
  keys o = ["id"; "nomutilisateur"; "email"] /\ ~ In "motdepasse" (keys o).
Proof.
  intros Hin.
  assert (Hk : keys o = ["id"; "nomutilisateur"; "email"]).
  { destruct Hin as [Hin|[Hin|Hin]]; revert Hin.
    - rewrite variant_post_table.
      destruct (negb (all_supplied body)); [intros []|].
      destruct (hasher_fault env || store_fault env || conflicts body db);
        [intros []|].
      intros [<-|[]]. reflexivity.
    - unfold Variant.get_utilisateurs, run, select_all.
      destruct (store_fault env); [intros []|].
      unfold accounts. simpl. rewrite in_map_iff. intros [r [<- _]]. reflexivity.
    - unfold Variant.get_utilisateur, run, select_by_id.
      destruct (store_fault env); [intros []|].
      destruct (find_id i db) as [r|]; [|intros []].
      intros [<-|[]]. reflexivity. }
  split; [exact Hk|]. rewrite Hk. simpl.
  intros [E|[E|[E|[]]]]; discriminate.
Qed.

(** C4, as the code has it.  In a table the service can reach,
    [POST /utilisateurs] with the three fields supplied and a name or an
    address that an account of the table already has is refused: the INSERT
    statement throws for the UNIQUE constraint, the handler answers the
    creation error of its [catch] (status 400), which is also its answer to a
    fault of the hasher or of the database on any complete request, the
    table is left as it was, and it holds exactly one account with that name
    (with that address). *)
Theorem post_conflict env db body :
  reachable db ->
  all_supplied body = true ->
  conflicts body db = true ->
  Index.post_utilisateurs env db body =
    (Index.erreur 400 "Erreur lors de la création de l'utilisateur", db) /\
  (forall h, insert_utilisateur (text (Body.nomutilisateur body)) h
               (text (Body.email body)) db = Throw SqliteConstraintUnique) /\
  (forall env' body',
      all_supplied body' = true ->
      hasher_fault env' = true \/ store_fault env' = true ->
      Index.post_utilisateurs env' db body' = Index.post_utilisateurs env db body) /\
  (nom_taken (text (Body.nomutilisateur body)) (utilisateurs db) = true ->
   count_nom (text (Body.nomutilisateur body))
     (snd (Index.post_utilisateurs env db body)) = 1%nat) /\
  (email_taken (text (Body.email body)) (utilisateurs db) = true ->
   count_email (text (Body.email body))
     (snd (Index.post_utilisateurs env db body)) = 1%nat).
Proof.
  intros Hr Ha Hc. apply reachable_sound in Hr. destruct Hr as [Hwf _].
  rewrite !post_table, Ha, Hc, !orb_true_r. cbn [negb snd].
  split; [reflexivity|]. split; [|split; [|split]].
  - intros h. unfold insert_utilisateur. unfold conflicts in Hc. rewrite Hc.
    reflexivity.
  - intros env' body' Ha' Hfault. rewrite post_table, Ha'. cbn [negb].
    destruct Hfault as [-> | ->]; rewrite ?orb_true_r; reflexivity.
  - intros Ht. apply count_key_unique; [apply Hwf | apply nom_taken_In, Ht].
  - intros Ht. apply count_key_unique; [apply Hwf | apply email_taken_In, Ht].
Qed.

Lemma sort_by_id_sorted (l : list Utilisateur) :
  StronglySorted Z.lt (map id l) -> sort_by_id l = l.
Proof.
  induction l as [|a l IH]; simpl; intros Hs; [reflexivity|].
  apply StronglySorted_inv in Hs. destruct Hs as [Hs Hall].
  rewrite (IH Hs). destruct l as [|x l']; [reflexivity|].
  simpl. inversion Hall; subst.
  assert ((id a <=? id x)%Z = true) as -> by (apply Z.leb_le; lia).
  reflexivity.
Qed.

(** C9. In a table the service can reach and with the database answering,
    [GET /utilisateurs] answers 200 with the accounts of all the rows and
    leaves the table as it is.  The statement of the handler asks for no
    order; with the rows coming in the order of the store, the accounts
    listed are the rows sorted by id, their ids are strictly ascending, and
    the order is the order of insertion: after a successful
    [POST /utilisateurs] the listing is the former listing followed by the
    account created. *)
Theorem get_utilisateurs_snapshot env db :
  reachable db ->
  store_fault env = false ->
  Index.get_utilisateurs env db =
    (mkResponse 200 (JArr (map public_row (utilisateurs db))), db) /\
  accounts (fst (Index.get_utilisateurs env db)) =
    map public_row (sort_by_id (utilisateurs db)) /\
  StronglySorted Z.lt
    (map object_id (accounts (fst (Index.get_utilisateurs env db)))) /\
  (forall env' body,
      status (fst (Index.post_utilisateurs env' db body)) = 201%Z ->
      accounts (fst (Index.get_utilisateurs env
                       (snd (Index.post_utilisateurs env' db body)))) =
      (accounts (fst (Index.get_utilisateurs env db)) ++
       accounts (fst (Index.post_utilisateurs env' db body)))%list).
Proof.
  intros Hr Hs. apply reachable_sound in Hr. destruct Hr as [Hwf _].
  unfold Index.get_utilisateurs, run, select_all. rewrite Hs.
  split; [reflexivity|]. split; [|split].
  - unfold accounts. simpl. rewrite (sort_by_id_sorted _ (wf_sorted _ Hwf)).
    reflexivity.
  - unfold accounts. simpl. rewrite object_id_public_row. apply Hwf.
  - intros env' body. rewrite post_table.
    destruct (negb (all_supplied body)); [discriminate|].
    destruct (hasher_fault env' || store_fault env' || conflicts body db);
      [discriminate|].
    intros _. unfold accounts, inserted. simpl. rewrite map_app. reflexivity.
Qed.
End Accounts.

(** * Verification of a secret *)

Lemma after_dollar_encode s plain :
  after_dollar (encode_salt s ++ String "$" plain) = Some plain.
Proof.
  induction s as [|c s IH]; simpl; [reflexivity|].
  unfold no_dollar at 1.
  destruct (Ascii.eqb_spec c "$") as [E|E]; [exact IH|].
  destruct (Ascii.eqb_spec c "$"); [contradiction | exact IH].
Qed.

Section Verification.
Context `{Argon2}.

Lemma verifier_table env db body :
  Index.post_verifier_motdepasse env db body =
  (if negb (truthy (Body.nomutilisateur body))
      || negb (truthy (Body.motdepasse body))
   then Index.erreur 400 "Nom d'utilisateur et mot de passe requis"
   else if store_fault env
   then Index.erreur 500 "Erreur lors de la vérification du mot de passe"
   else
     match find_nom (text (Body.nomutilisateur body)) db with
     | None => Index.erreur 404 "Utilisateur non trouvé"
     | Some r =>
         match verify (motdepasse r) (text (Body.motdepasse body)) with
         | Some true => Index.message 200 "Mot de passe correct !"
         | Some false => Index.erreur 401 "Mot de passe incorrect, désolé"
         | None => Index.erreur 500 "Erreur lors de la vérification du mot de passe"
         end
     end,
   db).
Proof.
  unfold Index.post_verifier_motdepasse, run, select_motdepasse, argon2_verify.
  destruct (negb (truthy (Body.nomutilisateur body))
            || negb (truthy (Body.motdepasse body))); [reflexivity|].
  destruct (store_fault env); [reflexivity|].
  destruct (find_nom (text (Body.nomutilisateur body)) db) as [r|]; simpl;
    [|reflexivity].
  destruct (verify (motdepasse r) (text (Body.motdepasse body))) as [[|]|];
    reflexivity.
Qed.

(** C2. With a hasher that keeps its contract, every account of a table the
    service can reach holds a secret, the string its stored token was hashed
    from, and [POST /verifier-motdepasse] for the name of the account answers
    that the password is correct exactly when the candidate is that string;
    every other non-empty candidate is answered with the mismatch. *)
Theorem verifier_accepts_exactly_the_stored_secret db r :
  hasher_correct ->
  reachable db ->
  In r (utilisateurs db) ->
  exists plain,
    holds_secret db (nomutilisateur r) plain /\
    forall env candidate e,
      store_fault env = false ->
      (fst (Index.post_verifier_motdepasse env db
              (Body.mk (Some (nomutilisateur r)) (Some candidate) e)) =
         Index.message 200 "Mot de passe correct !"
       <-> candidate = plain) /\
      (candidate <> plain -> candidate <> "" ->
       fst (Index.post_verifier_motdepasse env db
              (Body.mk (Some (nomutilisateur r)) (Some candidate) e)) =
         Index.erreur 401 "Mot de passe incorrect, désolé").
Proof.
  intros Hc Hr Hin. apply reachable_sound in Hr. destruct Hr as [Hwf Hh].
  unfold hashed in Hh. rewrite Forall_forall in Hh.
  destruct (Hh r Hin) as (s & plain & Hne & Htok).
  exists plain. split; [exists r, s; auto|].
  intros env candidate e Hs.
  pose proof (wf_text _ Hwf) as Ht. rewrite Forall_forall in Ht.
  destruct (Ht r Hin) as [Hnom _].
  rewrite verifier_table, Hs. cbn [fst Body.nomutilisateur Body.motdepasse text truthy].
  destruct (String.eqb_spec (nomutilisateur r) ""); [contradiction|].
  unfold find_nom. rewrite (find_key_unique nomutilisateur r _ (wf_nom _ Hwf) Hin).
  rewrite Htok, Hc.
  destruct (String.eqb_spec candidate "") as [Ec|Ec]; cbn [negb orb].
  - subst candidate. split; [|intros _ Habs; contradiction].
    split; [discriminate | intros E; exfalso; auto].
  - destruct (String.eqb_spec plain candidate) as [Ep|Ep].
    + subst. split; [tauto | intros Habs; contradiction].
    + split; [|reflexivity]. split; [discriminate | intros E; exfalso; auto].
Qed.

(** The secret an account holds is the one given when it was created. *)
Lemma post_stores_secret env db body :
  status (fst (Index.post_utilisateurs env db body)) = 201%Z ->
  holds_secret (snd (Index.post_utilisateurs env db body))
    (text (Body.nomutilisateur body)) (text (Body.motdepasse body)).
Proof.
  rewrite post_table.
  destruct (negb (all_supplied body)); [discriminate|].
  destruct (hasher_fault env || store_fault env || conflicts body db);
    [discriminate|].
  intros _. eexists _, (salt env). split; [|split].
  - cbn [snd inserted utilisateurs]. apply in_or_app. right. left. reflexivity.
  - reflexivity.
  - reflexivity.
Qed.

(** A hasher that keeps its contract hashes two strings to different
    tokens: an account holds one secret. *)
Lemma holds_secret_unique db n plain plain' :
  hasher_correct -> wf db ->
  holds_secret db n plain -> holds_secret db n plain' -> plain = plain'.
Proof.
  intros Hc Hwf (r & s & Hin & Hn & Ht) (r' & s' & Hin' & Hn' & Ht').
  assert (r' = r).
  { pose proof (find_key_unique nomutilisateur r _ (wf_nom _ Hwf) Hin) as E.
    pose proof (find_key_unique nomutilisateur r' _ (wf_nom _ Hwf) Hin') as E'.
    rewrite Hn in E. rewrite Hn' in E'. congruence. }
  subst r'. rewrite Ht in Ht'.
  pose proof (Hc s plain plain') as E. rewrite Ht', Hc, String.eqb_refl in E.
  injection E as E. symmetry in E. apply String.eqb_eq in E. exact E.
Qed.

Lemma find_nom_none n db :
  find_nom n db = None <->
  forall r, In r (utilisateurs db) -> nomutilisateur r <> n.
Proof.
  unfold find_nom. split.
  - intros Hf r Hin E. pose proof (find_none _ _ Hf r Hin) as Hr. simpl in Hr.
    rewrite E, String.eqb_refl in Hr. discriminate.
  - intros Hall.
    destruct (find (fun r => nomutilisateur r =? n) (utilisateurs db)) as [r|] eqn:Hf;
      [|reflexivity].
    apply find_some in Hf. destruct Hf as [Hin E]. apply String.eqb_eq in E.
    exfalso. apply (Hall r Hin E).
Qed.

Lemma find_nom_some n db r :
  wf db ->
  (find_nom n db = Some r <-> In r (utilisateurs db) /\ nomutilisateur r = n).
Proof.
  intros Hwf. unfold find_nom. split.
  - intros Hf. apply find_some in Hf. destruct Hf as [Hin E].
    apply String.eqb_eq in E. auto.
  - intros [Hin <-]. apply (find_key_unique nomutilisateur r _ (wf_nom _ Hwf) Hin).
Qed.

(** C6. In a table the service can reach, with the two fields of the
    request non-empty and the database answering, [POST /verifier-motdepasse]
    answers 404 exactly when no account of the table has the name, and 401
    exactly when an account of the table has the name and the hasher returns
    [false] for its token and the candidate; it answers 200 exactly when the
    hasher returns [true], and an exception of the hasher is the separate
    answer 500. *)
Theorem verifier_unknown_vs_mismatch env db body :
  reachable db ->
  truthy (Body.nomutilisateur body) = true ->
  truthy (Body.motdepasse body) = true ->
  store_fault env = false ->
  (fst (Index.post_verifier_motdepasse env db body) =
     Index.erreur 404 "Utilisateur non trouvé"
   <-> forall r, In r (utilisateurs db) ->
                 nomutilisateur r <> text (Body.nomutilisateur body)) /\
  (fst (Index.post_verifier_motdepasse env db body) =
     Index.erreur 401 "Mot de passe incorrect, désolé"
   <-> exists r, In r (utilisateurs db) /\
                 nomutilisateur r = text (Body.nomutilisateur body) /\
                 verify (motdepasse r) (text (Body.motdepasse body)) = Some false) /\
  (fst (Index.post_verifier_motdepasse env db body) =
     Index.message 200 "Mot de passe correct !"
   <-> exists r, In r (utilisateurs db) /\
                 nomutilisateur r = text (Body.nomutilisateur body) /\
                 verify (motdepasse r) (text (Body.motdepasse body)) = Some true) /\
  (status (fst (Index.post_verifier_motdepasse env db body)) = 500%Z
   <-> exists r, In r (utilisateurs db) /\
                 nomutilisateur r = text (Body.nomutilisateur body) /\
                 verify (motdepasse r) (text (Body.motdepasse body)) = None).
Proof.
  intros Hr Hn Hm Hs. apply reachable_sound in Hr. destruct Hr as [Hwf _].
  rewrite verifier_table, Hn, Hm, Hs. cbn [negb orb fst].
  destruct (find_nom (text (Body.nomutilisateur body)) db) as [r|] eqn:Hfind.
  - pose proof (proj1 (find_nom_some _ _ _ Hwf) Hfind) as [Hin Hname].
    assert (Huniq : forall r', In r' (utilisateurs db) ->
                      nomutilisateur r' = text (Body.nomutilisateur body) -> r' = r).
    { intros r' Hin' Hname'.
      pose proof (proj2 (find_nom_some _ _ r' Hwf) (conj Hin' Hname')) as E.
      congruence. }
    destruct (verify (motdepasse r) (text (Body.motdepasse body))) as [[|]|] eqn:Hv;
      (split; [split; [discriminate | intros Hall; exfalso; apply (Hall r Hin Hname)]|]);
      repeat split; try discriminate;
      try (intros _; exists r; auto);
      try (intros (r' & Hin' & Hname' & Hv');
           rewrite (Huniq r' Hin' Hname') in Hv'; congruence).
  - pose proof (proj1 (find_nom_none _ _) Hfind) as Hall.
    repeat split; auto; try discriminate;
      intros (r' & Hin' & Hname' & _); exfalso; apply (Hall r' Hin' Hname').
Qed.
End Verification.

Lemma toy_argon2_correct : @hasher_correct toy_argon2.
Proof.
  intros s plain candidate. simpl. rewrite after_dollar_encode. reflexivity.
Qed.

(** * Further properties of the handlers *)

Lemma find_id_In_row i db r : find_id i db = Some r -> In r (utilisateurs db).
Proof. unfold find_id. intros Hf. apply find_some in Hf. apply Hf. Qed.

Lemma find_app_id i (l l' : list Utilisateur) :
  find (has_id i) (l ++ l') =
  match find (has_id i) l with
  | Some r => Some r
  | None => find (has_id i) l'
  end.
Proof.
  induction l as [|a l IH]; simpl; [reflexivity|].
  destruct (has_id i a); [reflexivity | exact IH].
Qed.

Lemma find_absent_below i (l : list Utilisateur) :
  Forall (fun r => (id r < i)%Z) l -> find (has_id i) l = None.
Proof.
  induction 1 as [|a l Ha Hl IH]; simpl; [reflexivity|].
  assert (has_id i a = false) as -> by (apply Z.eqb_neq; lia). exact IH.
Qed.

Lemma below_next_id db : Forall (fun r => (id r < next_id db)%Z) (utilisateurs db).
Proof.
  eapply Forall_impl; [|apply (proj1 (max_id_bound (utilisateurs db)))].
  simpl. unfold next_id. intros; lia.
Qed.

Lemma find_other_without i j db :
  j <> i -> find_id j (without i db) = find_id j db.
Proof.
  intros Hne. unfold find_id, without. simpl.
  induction (utilisateurs db) as [|a l IH]; simpl; [reflexivity|].
  destruct (has_id i a) eqn:Hi; simpl.
  - apply has_id_true in Hi.
    assert (has_id j a = false) as -> by (apply Z.eqb_neq; lia). exact IH.
  - destruct (has_id j a); [reflexivity | exact IH].
Qed.

Lemma public_rows_without i (l : list Utilisateur) :
  map public_row (filter (fun x => negb (has_id i x)) l) =
  filter (fun o => negb (object_id o =? i)%Z) (map public_row l).
Proof.
  induction l as [|a l IH]; simpl; [reflexivity|].
  unfold has_id at 1. destruct (id a =? i)%Z; simpl; [exact IH | f_equal; exact IH].
Qed.

Lemma ids_replace_row i r' db :
  id r' = i ->
  map id (utilisateurs (replace_row i r' db)) = map id (utilisateurs db).
Proof.
  intros Hid. unfold replace_row. simpl.
  induction (utilisateurs db) as [|a l IH]; simpl; [reflexivity|].
  destruct (has_id i a) eqn:Ha; f_equal; auto.
  apply has_id_true in Ha. congruence.
Qed.

Section Further.
Context `{Argon2}.

(** X1. In a table the service can reach, a complete [POST /utilisateurs]
    that clashes with no account and meets no fault, and whose new id is
    below 2^53 (the integers [Number(result.lastInsertRowid)] keeps exact),
    answers 201 with an id greater than every id of the table;
    [GET /utilisateurs/:id] on that id then answers 200 with the same
    document, and every account that was in the table is still found under
    its id. *)
Theorem post_then_get env env' db body :
  reachable db ->
  (next_id db < 2 ^ 53)%Z ->
  all_supplied body = true ->
  conflicts body db = false ->
  fault_free env ->
  store_fault env' = false ->
  fst (Index.post_utilisateurs env db body) =
    mkResponse 201 (JObj (created body db)) /\
  Forall (fun r => (id r < object_id (created body db))%Z) (utilisateurs db) /\
  fst (Index.get_utilisateur env'
         (snd (Index.post_utilisateurs env db body)) (object_id (created body db))) =
    mkResponse 200 (JObj (created body db)) /\
  (forall j r, find_id j db = Some r ->
               find_id j (snd (Index.post_utilisateurs env db body)) = Some r).
Proof.
  intros _ _ Ha Hc [Hh Hs] Hs'. rewrite post_table, Ha, Hh, Hs, Hc. cbn [negb orb fst snd].
  split; [reflexivity|]. split; [apply below_next_id|]. split.
  - unfold Index.get_utilisateur, run, select_by_id, find_id. rewrite Hs'.
    cbn [inserted utilisateurs created object_id].
    rewrite find_app_id, (find_absent_below _ _ (below_next_id db)).
    cbn [find]. unfold has_id at 1. cbn [id]. rewrite Z.eqb_refl. reflexivity.
  - intros j r Hf. unfold find_id in *. cbn [inserted utilisateurs].
    rewrite find_app_id, Hf. reflexivity.
Qed.


(** X3. [PUT /utilisateurs/:id] never adds, removes or reorders accounts and
    never changes an id or the AUTOINCREMENT counter, whatever it answers. *)
Theorem put_keeps_ids env db i body :
  map id (utilisateurs (snd (Index.put_utilisateur env db i body))) =
    map id (utilisateurs db) /\
  sqlite_sequence (snd (Index.put_utilisateur env db i body)) = sqlite_sequence db.
Proof.
  rewrite put_table.
  destruct (negb (some_supplied body)); [split; reflexivity|].
  destruct (supplied Motdepasse body && hasher_fault env || store_fault env);
    [split; reflexivity|].
  destruct (find_id i db) as [r|] eqn:Hf; [|split; reflexivity].
  destruct (clashes i body db); [split; reflexivity|].
  cbn [snd]. split; [|reflexivity].
  apply ids_replace_row. simpl. apply (find_id_id _ _ _ Hf).
Qed.

(** X4. [DELETE /utilisateurs/:id] touches the row of its id alone: an
    account of another id is read by [GET /utilisateurs/:id] as before, and
    [GET /utilisateurs] lists the accounts it listed, in the same order,
    less the one of the id deleted. *)
Theorem delete_leaves_the_others env env' db i :
  store_fault env' = false ->
  (forall j, j <> i ->
     fst (Index.get_utilisateur env'
            (snd (Index.delete_utilisateur_route env db i)) j) =
     fst (Index.get_utilisateur env' db j)) /\
  (store_fault env = false ->
   accounts (fst (Index.get_utilisateurs env'
                    (snd (Index.delete_utilisateur_route env db i)))) =
   filter (fun o => negb (object_id o =? i)%Z)
          (accounts (fst (Index.get_utilisateurs env' db)))).
Proof.
  intros Hs'. rewrite delete_table. split.
  - intros j Hj. unfold Index.get_utilisateur, run, select_by_id. rewrite Hs'.
    destruct (store_fault env); [reflexivity|].
    destruct (find_id i db); cbn [snd]; [|reflexivity].
    rewrite (find_other_without _ _ _ Hj).
    destruct (find_id j db); reflexivity.
  - intros ->. unfold Index.get_utilisateurs, run, select_all, accounts.
    rewrite Hs'. simpl.
    destruct (find_id i db) as [r|] eqn:Hf; cbn [snd without utilisateurs].
    + apply public_rows_without.
    + apply find_id_none in Hf. rewrite <- public_rows_without.
      rewrite (filter_neg_absent _ _ Hf). reflexivity.
Qed.

(** X5. The reading routes and the verification of a secret never write:
    whatever they answer, and whatever fault strikes, the table and the
    counter are left as they were. *)
Theorem reading_routes_never_write env db i body :
  snd (Index.get_utilisateurs env db) = db /\
  snd (Index.get_utilisateur env db i) = db /\
  snd (Index.post_verifier_motdepasse env db body) = db.
Proof.
  rewrite verifier_table.
  unfold Index.get_utilisateurs, Index.get_utilisateur, run, select_all, select_by_id.
  destruct (store_fault env); [repeat split|].
  destruct (find_id i db); repeat split.
Qed.
End Further.

(** * Invariants and compositions *)

Lemma NoDup_map_eq {A B : Type} (f : A -> B) (l : list A) a b :
  NoDup (map f l) -> In a l -> In b l -> f a = f b -> a = b.
Proof.
  induction l as [|x l IH]; simpl; intros Hnd Ha Hb E; [contradiction|].
  inversion Hnd as [|? ? Hni Hnd']; subst.
  destruct Ha as [->|Ha], Hb as [->|Hb]; auto.
  - exfalso. apply Hni. rewrite E. apply in_map, Hb.
  - exfalso. apply Hni. rewrite <- E. apply in_map, Ha.
Qed.

Section Compositions.
Context `{Argon2}.

Lemma step_sequence db db' :
  step db db' -> (sqlite_sequence db <= sqlite_sequence db')%Z.
Proof.
  destruct 1; simpl; try lia. unfold next_id. lia.
Qed.

Lemma serve_reachable l : forall db, reachable db -> reachable (serve db l).
Proof.
  induction l as [|[env req] l IH]; intros db Hr; simpl; [exact Hr|].
  apply IH. apply reachable_step, Hr.
Qed.

Lemma serve_sequence l :
  forall db, (sqlite_sequence db <= sqlite_sequence (serve db l))%Z.
Proof.
  induction l as [|[env req] l IH]; intros db; simpl; [lia|].
  pose proof (step_sequence _ _ (handle_step env db req)).
  specialize (IH (snd (handle env db req))). simpl in *. lia.
Qed.

(** X6. An id is never given twice.  For an account that is in a table the
    service can reach, whatever requests follow (its own deletion among
    them), an account created afterwards gets a greater id. *)
Theorem ids_never_reused db r l env body :
  reachable db ->
  In r (utilisateurs db) ->
  status (fst (Index.post_utilisateurs env (serve db l) body)) = 201%Z ->
  exists o,
    accounts (fst (Index.post_utilisateurs env (serve db l) body)) = [o] /\
    (id r < object_id o)%Z.
Proof.
  intros Hr Hin. apply reachable_sound in Hr. destruct Hr as [Hwf _].
  pose proof (wf_seq _ Hwf) as Hq. rewrite Forall_forall in Hq.
  specialize (Hq r Hin). pose proof (serve_sequence l db) as Hm.
  rewrite post_table.
  destruct (negb (all_supplied body)); [discriminate|].
  destruct (hasher_fault env || store_fault env || conflicts body (serve db l));
    [discriminate|].
  intros _. exists (created body (serve db l)). split; [reflexivity|].
  cbn [created object_id]. unfold next_id. lia.
Qed.

(** X7. In a table the service can reach no two accounts share an id, a
    name or an address, and no account has an empty name or address. *)
Theorem reachable_accounts_distinct db r1 r2 :
  reachable db ->
  In r1 (utilisateurs db) ->
  In r2 (utilisateurs db) ->
  (id r1 = id r2 \/ nomutilisateur r1 = nomutilisateur r2 \/ email r1 = email r2
   -> r1 = r2) /\
  nomutilisateur r1 <> "" /\ email r1 <> "".
Proof.
  intros Hr H1 H2. apply reachable_sound in Hr. destruct Hr as [Hwf _].
  split.
  - intros [E|[E|E]].
    + apply (NoDup_map_eq id (utilisateurs db)); auto.
      apply sorted_NoDup, Hwf.
    + apply (NoDup_map_eq nomutilisateur (utilisateurs db)); auto. apply Hwf.
    + apply (NoDup_map_eq email (utilisateurs db)); auto. apply Hwf.
  - pose proof (wf_text _ Hwf) as Ht. rewrite Forall_forall in Ht.
    apply (Ht r1 H1).
Qed.

(** X8. An account may be sent its own name and address: in a table the
    service can reach and with the database answering,
    [PUT /utilisateurs/:id] with the name and the address the row already
    has answers 200 and leaves the table as it is. *)
Theorem put_own_values env db i r :
  reachable db ->
  find_id i db = Some r ->
  store_fault env = false ->
  Index.put_utilisateur env db i (own_values r) =
    (Index.message 200 "Utilisateur mis à jour avec succès", db).
Proof.
  intros Hr Hf Hs. apply reachable_sound in Hr. destruct Hr as [Hwf _].
  destruct (find_split _ _ _ Hf (sorted_NoDup _ (wf_sorted _ Hwf)))
    as (l1 & l2 & El & Hid & Efl & Emap).
  pose proof (wf_text _ Hwf) as Ht. pose proof (wf_nom _ Hwf) as Hn.
  pose proof (wf_email _ Hwf) as He. rewrite El in Ht, Hn, He.
  apply Forall_app in Ht. destruct Ht as [_ Ht].
  inversion Ht as [|? ? [Htn Hte] _]; subst.
  rewrite map_app in Hn, He. simpl in Hn, He.
  apply NoDup_remove_2 in Hn. apply NoDup_remove_2 in He.
  rewrite <- map_app in Hn, He.
  assert (Tn : truthy (Some (nomutilisateur r)) = true)
    by (simpl; destruct (String.eqb_spec (nomutilisateur r) ""); [contradiction | reflexivity]).
  assert (Te : truthy (Some (email r)) = true)
    by (simpl; destruct (String.eqb_spec (email r) ""); [contradiction | reflexivity]).
  rewrite put_table, Hf, Hs.
  unfold some_supplied, supplied, clashes, own_values.
  cbn [Body.nomutilisateur Body.motdepasse Body.email text].
  rewrite Tn, Te, Efl. cbn [truthy negb orb andb].
  destruct (nom_taken (nomutilisateur r) (l1 ++ l2)) eqn:E1;
    [apply nom_taken_In in E1; contradiction|].
  destruct (email_taken (email r) (l1 ++ l2)) eqn:E2;
    [apply email_taken_In in E2; contradiction|].
  cbn [orb]. f_equal. unfold replace_row. rewrite Emap.
  unfold updated, supplied, written, column_of.
  cbn [Body.nomutilisateur Body.motdepasse Body.email text].
  rewrite Tn, Te. cbn [truthy].
  destruct db as [rows seq]. simpl in El. subst rows. destruct r. reflexivity.
Qed.

(** X9. The hasher is called only for a request that supplies a secret: the
    outcome of [PUT /utilisateurs/:id] without [motdepasse] depends neither
    on the salt nor on a fault of the hasher. *)
Theorem put_without_secret_ignores_hasher env env' db i body :
  supplied Motdepasse body = false ->
  store_fault env = store_fault env' ->
  Index.put_utilisateur env db i body = Index.put_utilisateur env' db i body.
Proof.
  intros Hm Hs. rewrite !put_table, Hm, Hs. cbn [andb].
  destruct (find_id i db) as [r|]; [|reflexivity].
  assert (updated env body r = updated env' body r) as ->; [|reflexivity].
  unfold updated. rewrite Hm. unfold written. reflexivity.
Qed.


Lemma rename_public_rows l :
  map (map rename_member) (map public_row l) = map public_row l.
Proof.
  induction l as [|a l IH]; simpl; [reflexivity|]. rewrite IH. reflexivity.
Qed.

(** X11. On a creation, a listing, a reading and a deletion, the variant
    sends the response [src/index.ts] sends, status and document, with the
    member [erreur] of an error document named [error], and leaves the same
    table; so does it on an update that supplies the three fields. *)
Theorem variant_agrees env db i body :
  Variant.post_utilisateurs env db body =
    outcome_as_variant (Index.post_utilisateurs env db body) /\
  Variant.get_utilisateurs env db =
    outcome_as_variant (Index.get_utilisateurs env db) /\
  Variant.get_utilisateur env db i =
    outcome_as_variant (Index.get_utilisateur env db i) /\
  Variant.delete_utilisateur_route env db i =
    outcome_as_variant (Index.delete_utilisateur_route env db i) /\
  (all_supplied body = true ->
   Variant.put_utilisateur env db i body =
     outcome_as_variant (Index.put_utilisateur env db i body)).
Proof.
  rewrite variant_post_table, post_table, variant_delete_table, delete_table,
    variant_put_table, put_table.
  unfold Variant.get_utilisateurs, Index.get_utilisateurs,
    Variant.get_utilisateur, Index.get_utilisateur, run, select_all, select_by_id.
  split; [|split; [|split; [|split]]].
  - repeat match goal with
           | |- context [if ?b then _ else _] => destruct b
           end; reflexivity.
  - destruct (store_fault env); [reflexivity|].
    unfold outcome_as_variant, as_variant. cbn [fst snd status json].
    rewrite rename_public_rows. reflexivity.
  - destruct (store_fault env); [reflexivity|].
    destruct (find_id i db); reflexivity.
  - destruct (store_fault env); [reflexivity|].
    destruct (find_id i db); reflexivity.
  - intros Ha. rewrite Ha. unfold all_supplied in Ha. unfold some_supplied.
    apply andb_true_iff in Ha. destruct Ha as [Ha H3].
    apply andb_true_iff in Ha. destruct Ha as [H1 H2].
    rewrite H1, H2. cbn [negb orb andb].
    destruct (hasher_fault env || store_fault env); [reflexivity|].
    destruct (find_id i db); [|reflexivity].
    destruct (clashes i body db); reflexivity.
Qed.

(** X12. The UPDATE statement [src/index.ts] prepares always has an
    assignment: once a request has passed the test of the handler, the
    object [updates] has a key and the SET clause is not empty. *)
Theorem update_statement_never_empty env body sets :
  some_supplied body = true ->
  Index.updates env body = Val sets ->
  sets <> [] /\ set_clause sets <> "".
Proof.
  intros Hs Hu. apply updates_written in Hu. subst sets.
  unfold some_supplied in Hs. unfold supplied_set, set_clause. cbn [filter].
  destruct (supplied Nomutilisateur body), (supplied Motdepasse body),
    (supplied Email body); try discriminate; split; discriminate.
Qed.
End Compositions.

(** * Secrets across creation, update and deletion *)

Section Secrets.
Context `{Argon2}.

Lemma nonempty_truthy s : s <> "" -> truthy (Some s) = true.
Proof.
  intros Hne. simpl. destruct (String.eqb_spec s ""); [contradiction | reflexivity].
Qed.

(** The answer of the verification for the name of a row of the table. *)
Lemma verifier_of_row env db r candidate :
  wf db -> In r (utilisateurs db) ->
  store_fault env = false -> candidate <> "" ->
  fst (Index.post_verifier_motdepasse env db (login (nomutilisateur r) candidate)) =
  match verify (motdepasse r) candidate with
  | Some true => Index.message 200 "Mot de passe correct !"
  | Some false => Index.erreur 401 "Mot de passe incorrect, désolé"
  | None => Index.erreur 500 "Erreur lors de la vérification du mot de passe"
  end.
Proof.
  intros Hwf Hin Hs Hc.
  pose proof (wf_text _ Hwf) as Ht. rewrite Forall_forall in Ht.
  destruct (Ht r Hin) as [Hnom _].
  rewrite verifier_table, Hs. unfold login.
  cbn [fst Body.nomutilisateur Body.motdepasse text].
  rewrite (nonempty_truthy _ Hnom), (nonempty_truthy _ Hc). cbn [negb orb].
  unfold find_nom. rewrite (find_key_unique nomutilisateur r _ (wf_nom _ Hwf) Hin).
  reflexivity.
Qed.

Lemma verifier_of_hashed_row env db r s plain candidate :
  hasher_correct -> wf db -> In r (utilisateurs db) ->
  motdepasse r = hash s plain -> plain <> "" ->
  store_fault env = false ->
  (fst (Index.post_verifier_motdepasse env db (login (nomutilisateur r) candidate)) =
     Index.message 200 "Mot de passe correct !"
   <-> candidate = plain).
Proof.
  intros Hc Hwf Hin Htok Hne Hs.
  destruct (String.eqb_spec candidate "") as [->|Hcand].
  - rewrite verifier_table. unfold login. cbn [fst Body.motdepasse truthy].
    rewrite String.eqb_refl, orb_true_r.
    split; [discriminate | intros E; exfalso; auto].
  - rewrite (verifier_of_row _ _ _ _ Hwf Hin Hs Hcand), Htok, Hc.
    destruct (String.eqb_spec plain candidate) as [E|E].
    + split; auto.
    + split; [discriminate | intros E'; exfalso; auto].
Qed.

(** X13. With a hasher that keeps its contract, after a successful
    [POST /utilisateurs] in a table the service can reach, the verification
    of the name created accepts the secret of the request and no other
    string. *)
Theorem post_then_verify env env' db body candidate :
  hasher_correct ->
  reachable db ->
  status (fst (Index.post_utilisateurs env db body)) = 201%Z ->
  store_fault env' = false ->
  (fst (Index.post_verifier_motdepasse env'
          (snd (Index.post_utilisateurs env db body))
          (login (text (Body.nomutilisateur body)) candidate)) =
     Index.message 200 "Mot de passe correct !"
   <-> candidate = text (Body.motdepasse body)).
Proof.
  intros Hc Hr Hst Hs'.
  pose proof (reachable_sound _ (reachable_step env db (PostUtilisateurs body) Hr))
    as [Hwf' _].
  cbn [handle] in Hwf'. revert Hst Hwf'. rewrite post_table.
  destruct (all_supplied body) eqn:Ha; [|discriminate]. cbn [negb].
  destruct (hasher_fault env || store_fault env || conflicts body db);
    [discriminate|].
  cbn [fst snd]. intros _ Hwf'.
  unfold all_supplied, supplied in Ha.
  apply andb_true_iff in Ha. destruct Ha as [Ha _].
  apply andb_true_iff in Ha. destruct Ha as [_ Hm].
  apply (verifier_of_hashed_row env' (inserted env body db)
           (mkUtilisateur (next_id db) (text (Body.nomutilisateur body))
              (hash (salt env) (text (Body.motdepasse body)))
              (text (Body.email body)))
           (salt env) (text (Body.motdepasse body)) candidate Hc Hwf').
  - cbn [inserted utilisateurs]. apply in_or_app. right. left. reflexivity.
  - reflexivity.
  - apply (truthy_text _ Hm).
  - exact Hs'.
Qed.

Lemma put_success env db i body r :
  find_id i db = Some r ->
  status (fst (Index.put_utilisateur env db i body)) = 200%Z ->
  snd (Index.put_utilisateur env db i body) =
    replace_row i (updated env body r) db /\
  In (updated env body r)
     (utilisateurs (snd (Index.put_utilisateur env db i body))).
Proof.
  intros Hf. rewrite put_table, Hf.
  destruct (negb (some_supplied body)); [discriminate|].
  destruct (supplied Motdepasse body && hasher_fault env || store_fault env);
    [discriminate|].
  destruct (clashes i body db); [discriminate|].
  intros _. cbn [snd]. split; [reflexivity|].
  apply (find_id_In_row i). rewrite find_replace_row, Z.eqb_refl, Hf;
    [reflexivity | apply (find_id_id _ _ _ Hf)].
Qed.

(** X14. With a hasher that keeps its contract, after a successful
    [PUT /utilisateurs/:id] that supplies a secret, the verification of the
    name the account then has accepts the new secret and no other string:
    the former secret is refused unless it is the same string. *)
Theorem put_secret_then_verify env env' db i body r candidate :
  hasher_correct ->
  reachable db ->
  find_id i db = Some r ->
  supplied Motdepasse body = true ->
  status (fst (Index.put_utilisateur env db i body)) = 200%Z ->
  store_fault env' = false ->
  (fst (Index.post_verifier_motdepasse env'
          (snd (Index.put_utilisateur env db i body))
          (login (name_after body r) candidate)) =
     Index.message 200 "Mot de passe correct !"
   <-> candidate = text (Body.motdepasse body)).
Proof.
  intros Hc Hr Hf Hm Hst Hs'.
  pose proof (reachable_sound _ (reachable_step env db (PutUtilisateur i body) Hr))
    as [Hwf' _].
  cbn [handle] in Hwf'.
  destruct (put_success _ _ _ _ _ Hf Hst) as [_ Hin].
  apply (verifier_of_hashed_row env' _ (updated env body r)
           (salt env) (text (Body.motdepasse body)) candidate Hc Hwf' Hin).
  - unfold updated. cbn [motdepasse]. rewrite Hm. reflexivity.
  - apply (truthy_text _ Hm).
  - exact Hs'.
Qed.

(** X15. An update that supplies no secret keeps the secret: after a
    successful [PUT /utilisateurs/:id] without [motdepasse] in a table the
    service can reach, the verification of the name the account then has
    answers a candidate as the verification of its former name did. *)
Theorem put_without_secret_keeps_secret env env' db i body r candidate :
  reachable db ->
  find_id i db = Some r ->
  supplied Motdepasse body = false ->
  status (fst (Index.put_utilisateur env db i body)) = 200%Z ->
  fst (Index.post_verifier_motdepasse env'
         (snd (Index.put_utilisateur env db i body))
         (login (name_after body r) candidate)) =
  fst (Index.post_verifier_motdepasse env' db
         (login (nomutilisateur r) candidate)).
Proof.
  intros Hr Hf Hm Hst.
  pose proof (reachable_sound _ (reachable_step env db (PutUtilisateur i body) Hr))
    as [Hwf' _].
  cbn [handle] in Hwf'.
  apply reachable_sound in Hr. destruct Hr as [Hwf _].
  destruct (put_success _ _ _ _ _ Hf Hst) as [_ Hin].
  pose proof (find_id_In_row _ _ _ Hf) as Hin0.
  destruct (String.eqb_spec candidate "") as [->|Hcand].
  - rewrite !verifier_table. unfold login. cbn [fst Body.motdepasse truthy].
    rewrite String.eqb_refl, !orb_true_r. reflexivity.
  - destruct (store_fault env') eqn:Hs'.
    + rewrite !verifier_table, Hs'. unfold login.
      cbn [fst Body.nomutilisateur Body.motdepasse].
      pose proof (wf_text _ Hwf) as Ht. rewrite Forall_forall in Ht.
      pose proof (wf_text _ Hwf') as Ht'. rewrite Forall_forall in Ht'.
      destruct (Ht r Hin0) as [Hn _]. destruct (Ht' _ Hin) as [Hn' _].
      change (nomutilisateur (updated env body r)) with (name_after body r) in Hn'.
      rewrite (nonempty_truthy _ Hn), (nonempty_truthy _ Hn'). reflexivity.
    + change (name_after body r) with (nomutilisateur (updated env body r)).
      rewrite (verifier_of_row env' _ (updated env body r) candidate Hwf' Hin Hs' Hcand).
      rewrite (verifier_of_row env' db r candidate Hwf Hin0 Hs' Hcand).
      unfold updated. cbn [motdepasse]. rewrite Hm. reflexivity.
Qed.

(** X16. A deletion frees the name and the address: in a table the service
    can reach, after [DELETE /utilisateurs/:id] of an account, the
    verification of its name answers 404, and a creation with its name and
    its address is accepted. *)
Theorem delete_frees_name env env' db i r secret :
  reachable db ->
  find_id i db = Some r ->
  store_fault env = false ->
  fault_free env' ->
  secret <> "" ->
  fst (Index.post_verifier_motdepasse env'
         (snd (Index.delete_utilisateur_route env db i))
         (login (nomutilisateur r) secret)) =
    Index.erreur 404 "Utilisateur non trouvé" /\
  status (fst (Index.post_utilisateurs env'
                 (snd (Index.delete_utilisateur_route env db i))
                 (Body.mk (Some (nomutilisateur r)) (Some secret) (Some (email r)))))
    = 201%Z.
Proof.
  intros Hr Hf Hs [Hh' Hs'] Hsec.
  apply reachable_sound in Hr. destruct Hr as [Hwf _].
  destruct (find_split _ _ _ Hf (sorted_NoDup _ (wf_sorted _ Hwf)))
    as (l1 & l2 & El & Hid & Efl & Emap).
  pose proof (wf_text _ Hwf) as Ht. pose proof (wf_nom _ Hwf) as Hn.
  pose proof (wf_email _ Hwf) as He. rewrite El in Ht, Hn, He.
  apply Forall_app in Ht. destruct Ht as [_ Ht].
  inversion Ht as [|? ? [Htn Hte] _]; subst.
  rewrite map_app in Hn, He. simpl in Hn, He.
  apply NoDup_remove_2 in Hn. apply NoDup_remove_2 in He.
  rewrite <- map_app in Hn, He.
  assert (E1 : nom_taken (nomutilisateur r) (l1 ++ l2) = false)
    by (destruct (nom_taken (nomutilisateur r) (l1 ++ l2)) eqn:E;
        [apply nom_taken_In in E; contradiction | reflexivity]).
  assert (E2 : email_taken (email r) (l1 ++ l2) = false)
    by (destruct (email_taken (email r) (l1 ++ l2)) eqn:E;
        [apply email_taken_In in E; contradiction | reflexivity]).
  rewrite delete_table, Hs, Hf. cbn [snd]. split.
  - rewrite verifier_table, Hs'. unfold login.
    cbn [fst Body.nomutilisateur Body.motdepasse text].
    rewrite (nonempty_truthy _ Htn), (nonempty_truthy _ Hsec). cbn [negb orb].
    unfold find_nom, without. cbn [utilisateurs]. rewrite Efl.
    destruct (find (fun x => nomutilisateur x =? nomutilisateur r) (l1 ++ l2))
      as [x|] eqn:Efind; [|reflexivity].
    exfalso. apply find_some in Efind. destruct Efind as [Hx Ex].
    apply String.eqb_eq in Ex. apply Hn. rewrite <- Ex. apply in_map, Hx.
  - rewrite post_table. unfold all_supplied, supplied, conflicts, without.
    cbn [Body.nomutilisateur Body.motdepasse Body.email text utilisateurs].
    rewrite (nonempty_truthy _ Htn), (nonempty_truthy _ Hsec),
      (nonempty_truthy _ Hte), Hh', Hs', Efl, E1, E2.
    reflexivity.
Qed.
End Secrets.

(** * Conflicts of an update, and what no response carries *)

Lemma clashes_taken_by_another i body db :
  clashes i body db = true <-> taken_by_another i body db.
Proof.
  unfold clashes, taken_by_another, supplied, nom_taken, email_taken.
  rewrite orb_true_iff, !andb_true_iff, !existsb_exists. split.
  - intros [[Hn [x [Hx Ex]]]|[He [x [Hx Ex]]]]; exists x;
      apply filter_In in Hx; destruct Hx as [Hx Hid];
      apply negb_true_iff, Z.eqb_neq in Hid; apply String.eqb_eq in Ex;
      repeat split; auto.
  - intros (x & Hx & Hid & [[Hn Ex]|[He Ex]]); [left | right];
      (split; [assumption|]); exists x;
      (split; [apply filter_In; split;
               [assumption | apply negb_true_iff, Z.eqb_neq; exact Hid]
              | apply String.eqb_eq; exact Ex]).
Qed.

Section Conflicts.
Context `{Argon2}.

(** X17. With no fault, [PUT /utilisateurs/:id] on an id of the table and a
    request that supplies a field answers 400 exactly when another account
    has the name or the address supplied, and 200 otherwise; the 400 leaves
    the table as it was. *)
Theorem put_conflict env db i body r :
  some_supplied body = true ->
  fault_free env ->
  find_id i db = Some r ->
  (status (fst (Index.put_utilisateur env db i body)) = 400%Z
   <-> taken_by_another i body db) /\
  (status (fst (Index.put_utilisateur env db i body)) = 200%Z
   <-> ~ taken_by_another i body db) /\
  (taken_by_another i body db ->
   Index.put_utilisateur env db i body =
     (Index.erreur 400 "Erreur lors de la mise à jour de l'utilisateur", db)).
Proof.
  intros Hs [Hh Hst] Hf. rewrite put_table, Hs, Hh, Hst, Hf, andb_false_r.
  cbn [negb orb]. rewrite <- clashes_taken_by_another.
  destruct (clashes i body db); cbn [fst status Index.erreur Index.message].
  - repeat split; auto; try discriminate; intros Hn; exfalso; auto.
  - repeat split; auto; try discriminate; intros; discriminate.
Qed.

Ltac no_key := simpl; intros Hk; repeat destruct Hk as [Hk|Hk]; try discriminate; auto.

(** X18. No document of any response has a member [motdepasse]: neither the
    accounts, nor the confirmations, nor the error documents of any route
    carry the stored token under its column name. *)
Theorem no_response_names_motdepasse env db req :
  no_member "motdepasse" (fst (handle env db req)).
Proof.
  unfold no_member.
  destruct req as [body| |i|i body|i|body]; cbn [handle].
  - rewrite post_table.
    repeat match goal with
           | |- context [if ?b then _ else _] => destruct b
           end; no_key.
  - unfold Index.get_utilisateurs, run, select_all.
    destruct (store_fault env); [no_key|].
    cbn [fst json]. apply Forall_forall. intros o Ho.
    apply in_map_iff in Ho. destruct Ho as [r [<- _]]. no_key.
  - unfold Index.get_utilisateur, run, select_by_id.
    destruct (store_fault env); [no_key|].
    destruct (find_id i db); no_key.
  - rewrite put_table.
    repeat match goal with
           | |- context [if ?b then _ else _] => destruct b
           | |- context [match ?o with Some _ => _ | None => _ end] => destruct o
           end; no_key.
  - rewrite delete_table.
    destruct (store_fault env); [no_key|].
    destruct (find_id i db); no_key.
  - rewrite verifier_table.
    destruct (negb (truthy (Body.nomutilisateur body))
              || negb (truthy (Body.motdepasse body))); [no_key|].
    destruct (store_fault env); [no_key|].
    destruct (find_nom (text (Body.nomutilisateur body)) db) as [r|]; [|no_key].
    destruct (verify (motdepasse r) (text (Body.motdepasse body))) as [[|]|];
      no_key.
Qed.
End Conflicts.

(** * Runs of the model

    The handlers evaluated with [toy_argon2] on the tables [db_alice] and
    [db_alice_bob]. *)

(** The scenario of the specification: create, wrong secret, right secret,
    delete, read. *)
Example scenario :
  let env := quiet "s1" in
  let created := @Index.post_utilisateurs toy_argon2 env empty_db body_alice in
  let db1 := snd created in
  let deleted := Index.delete_utilisateur_route env db1 1 in
  fst created =
    mkResponse 201
      (JObj [("id", JNumber 1); ("nomutilisateur", JString "alice");
             ("email", JString "a@x.io")]) /\
  db1 = db_alice /\
  fst (@Index.post_verifier_motdepasse toy_argon2 env db1 (login "alice" "wrong")) =
    Index.erreur 401 "Mot de passe incorrect, désolé" /\
  fst (@Index.post_verifier_motdepasse toy_argon2 env db1 (login "alice" "p@ss1")) =
    Index.message 200 "Mot de passe correct !" /\
  fst deleted = Index.message 200 "Utilisateur supprimé avec succès" /\
  fst (Index.get_utilisateur env (snd deleted) 1) =
    Index.erreur 404 "Utilisateur non trouvé".
Proof. repeat split; reflexivity. Qed.

(** A partial update in [src/index.ts] changes the address alone. *)
Example partial_update :
  let out := @Index.put_utilisateur toy_argon2 (quiet "s3") db_alice 1 body_email in
  fst out = Index.message 200 "Utilisateur mis à jour avec succès" /\
  utilisateurs (snd out) =
    [mkUtilisateur 1 "alice" (motdepasse alice) "new@x"] /\
  fst (Index.get_utilisateur (quiet "") (snd out) 1) =
    mkResponse 200
      (JObj [("id", JNumber 1); ("nomutilisateur", JString "alice");
             ("email", JString "new@x")]).
Proof. repeat split; reflexivity. Qed.

(** The SET clause of a request that supplies the name and the address. *)
Example set_clause_of_request :
  bind (@Index.updates toy_argon2 (quiet "s3")
          (Body.mk (Some "al") (Some "") (Some "al@x.io")))
       (fun sets => Val (set_clause sets)) =
  Val "nomutilisateur = ?, email = ?".
Proof. reflexivity. Qed.

(** An id is not used again after its row is deleted. *)
Example id_not_reused :
  let db := snd (Index.delete_utilisateur_route (quiet "") db_alice_bob 2) in
  map id (utilisateurs
            (snd (@Index.post_utilisateurs toy_argon2 (quiet "s4") db
                    (Body.mk (Some "carol") (Some "pw") (Some "c@x.io"))))) =
  [1; 3]%Z.
Proof. reflexivity. Qed.

(** A name taken by another account is refused by the UPDATE. *)
Example update_conflict :
  @Index.put_utilisateur toy_argon2 (quiet "s3") db_alice_bob 1
    (Body.mk (Some "bob") None None) =
  (Index.erreur 400 "Erreur lors de la mise à jour de l'utilisateur", db_alice_bob).
Proof. reflexivity. Qed.

Lemma put_changes_only_supplied_witness :
  find_id 1 db_alice_bob = Some alice /\
  some_supplied body_email = true /\
  (exists r',
      find_id 1 (snd (@Index.put_utilisateur toy_argon2 (quiet "s3") db_alice_bob 1
                        body_email)) = Some r' /\
      email r' = "new@x" /\
      nomutilisateur r' = "alice" /\
      motdepasse r' = motdepasse alice) /\
  some_supplied body_full = true /\
  all_supplied body_full = true /\
  fault_free (quiet "s7") /\
  clashes 1 body_full db_alice_bob = false /\
  status (fst (@Variant.put_utilisateur toy_argon2 (quiet "s7") db_alice_bob 1
                 body_full)) = 200%Z /\
  (exists r',
      find_id 1 (snd (@Variant.put_utilisateur toy_argon2 (quiet "s7") db_alice_bob 1
                        body_full)) = Some r' /\
      nomutilisateur r' = "alicia" /\
      motdepasse r' = @hash toy_argon2 "s7" "n3w" /\
      email r' = "new@x").
Proof.
  assert (Hq : fault_free (quiet "s7")) by (split; reflexivity).
  split; [reflexivity|]. split; [reflexivity|]. split.
  { destruct (proj1 (@put_changes_only_supplied toy_argon2 (quiet "s3") db_alice_bob 1
                       body_email alice eq_refl eq_refl))
      as (r' & Hfind & Hkeep & _ & _ & Hok).
    exists r'. split; [exact Hfind|]. split; [|split].
    - apply (Hok eq_refl Email eq_refl).
    - apply (Hkeep Nomutilisateur eq_refl).
    - apply (Hkeep Motdepasse eq_refl). }
  split; [reflexivity|]. split; [reflexivity|]. split; [exact Hq|].
  split; [reflexivity|].
  destruct (@put_changes_only_supplied toy_argon2 (quiet "s7") db_alice_bob 1
              body_full alice eq_refl eq_refl)
    as (_ & _ & _ & (r' & Hfind & _ & _ & _ & Hok) & _ & Hrun & _).
  pose proof (Hrun eq_refl Hq eq_refl) as Hst.
  split; [exact Hst|].
  exists r'. split; [exact Hfind|]. split; [|split].
  - apply (Hok Hst Nomutilisateur eq_refl).
  - apply (Hok Hst Motdepasse eq_refl).
  - apply (Hok Hst Email eq_refl).
Defined.

(** C1, as the claim has it, fails on the variant: a request that supplies
    the address alone is a non-empty field set for an existing id, and the
    variant writes no column: the address of the account stays what it
    was. *)
Lemma variant_put_partial_writes_nothing :
  find_id 1 db_alice = Some alice /\
  supplied_set body_email = [Email] /\
  snd (@Variant.put_utilisateur toy_argon2 (quiet "s3") db_alice 1 body_email) =
    db_alice /\
  option_map email
    (find_id 1 (snd (@Variant.put_utilisateur toy_argon2 (quiet "s3") db_alice 1
                       body_email))) = Some "a@x.io" /\
  text (Body.email body_email) <> "a@x.io".
Proof. repeat split; try reflexivity. discriminate. Qed.

(** C7, as the claim has it, fails on the variant: a request that supplies
    the address alone is answered with the validation failure, where
    [src/index.ts] updates the account. *)
Lemma variant_put_refuses_partial_request :
  Body.email body_email = Some "new@x" /\
  @Variant.put_utilisateur toy_argon2 (quiet "s3") db_alice 1 body_email =
    (Variant.error 400 "Tous les champs sont requis", db_alice) /\
  fst (@Index.put_utilisateur toy_argon2 (quiet "s3") db_alice 1 body_email) =
    Index.message 200 "Utilisateur mis à jour avec succès".
Proof. repeat split; reflexivity. Qed.

Lemma put_validation_and_not_found_witness :
  some_supplied body_email = true /\
  fault_free (quiet "s3") /\
  find_id 7 db_alice = None /\
  status (fst (@Index.put_utilisateur toy_argon2 (quiet "s3") db_alice 7 body_email))
    = 404%Z.
Proof.
  assert (Hq : fault_free (quiet "s3")) by (split; reflexivity).
  split; [reflexivity|]. split; [exact Hq|]. split; [reflexivity|].
  apply (proj1 (proj2 (proj2
    (@put_validation_and_not_found toy_argon2 (quiet "s3") db_alice 7 body_email)))
    eq_refl Hq eq_refl).
Defined.

Lemma put_empty_field_is_absent_witness :
  (forall c', field c' body_empty_email = None \/ field c' body_empty_email = Some "") /\
  @Index.put_utilisateur toy_argon2 (quiet "s3") db_alice 1 body_empty_email =
    @Index.put_utilisateur toy_argon2 (quiet "s3") db_alice 1 body_none.
Proof.
  assert (Hall : forall c', field c' body_empty_email = None
                            \/ field c' body_empty_email = Some "")
    by (intros [| |]; [left | left | right]; reflexivity).
  split; [exact Hall|].
  apply (proj2 (proj2 (proj2
    (@put_empty_field_is_absent toy_argon2 (quiet "s3") db_alice 1
       body_empty_email Email))) Hall).
Defined.

Lemma failed_request_leaves_store_witness :
  (400 <= status (fst (@handle toy_argon2 (quiet "s3") db_alice_bob
                         (PutUtilisateur 1 (Body.mk (Some "bob") None None)))))%Z /\
  snd (@handle toy_argon2 (quiet "s3") db_alice_bob
         (PutUtilisateur 1 (Body.mk (Some "bob") None None))) = db_alice_bob.
Proof.
  assert (Hs : (400 <= status (fst (@handle toy_argon2 (quiet "s3") db_alice_bob
                   (PutUtilisateur 1 (Body.mk (Some "bob") None None)))))%Z)
    by (vm_compute; discriminate).
  split; [exact Hs|].
  apply (@failed_request_leaves_store toy_argon2 (quiet "s3") db_alice_bob
           (PutUtilisateur 1 (Body.mk (Some "bob") None None)) Hs).
Defined.


Lemma reachable_db_alice : @reachable toy_argon2 db_alice.
Proof.
  exact (@reachable_step toy_argon2 (quiet "s1") empty_db
           (PostUtilisateurs body_alice) (@reachable_empty toy_argon2)).
Qed.

Lemma returned_accounts_omit_motdepasse_witness :
  In (public_row alice)
     (accounts (fst (Index.get_utilisateur (quiet "") db_alice 1))) /\
  keys (public_row alice) = ["id"; "nomutilisateur"; "email"] /\
  ~ In "motdepasse" (keys (public_row alice)).
Proof.
  assert (Hin : In (public_row alice)
                   (accounts (fst (Index.get_utilisateur (quiet "") db_alice 1))))
    by (left; reflexivity).
  split; [exact Hin|].
  apply (@returned_accounts_omit_motdepasse toy_argon2 (quiet "") db_alice
           body_none 1 (public_row alice)).
  right. right. exact Hin.
Defined.

Lemma post_conflict_witness :
  @reachable toy_argon2 db_alice /\
  all_supplied (Body.mk (Some "alice") (Some "other") (Some "z@x.io")) = true /\
  conflicts (Body.mk (Some "alice") (Some "other") (Some "z@x.io")) db_alice = true /\
  @Index.post_utilisateurs toy_argon2 (quiet "s9") db_alice
    (Body.mk (Some "alice") (Some "other") (Some "z@x.io")) =
    (Index.erreur 400 "Erreur lors de la création de l'utilisateur", db_alice).
Proof.
  split; [exact reachable_db_alice|]. split; [reflexivity|]. split; [reflexivity|].
  apply (proj1 (@post_conflict toy_argon2 (quiet "s9") db_alice
                  (Body.mk (Some "alice") (Some "other") (Some "z@x.io"))
                  reachable_db_alice eq_refl eq_refl)).
Defined.

(** C4, as the claim has it, fails: the answer to a creation that conflicts
    is no failure of its own kind.  It is, status and document, the answer
    to a creation that conflicts with nothing and meets a fault of the
    hasher. *)
Lemma post_conflict_answered_as_a_fault :
  conflicts (Body.mk (Some "alice") (Some "other") (Some "z@x.io")) db_alice = true /\
  conflicts body_bob db_alice = false /\
  fst (@Index.post_utilisateurs toy_argon2 (quiet "s9") db_alice
         (Body.mk (Some "alice") (Some "other") (Some "z@x.io"))) =
  fst (@Index.post_utilisateurs toy_argon2 (mkEnv "s9" true false) db_alice body_bob).
Proof. repeat split. Qed.


Lemma verifier_accepts_exactly_the_stored_secret_witness :
  @hasher_correct toy_argon2 /\
  @reachable toy_argon2 db_alice /\
  In alice (utilisateurs db_alice) /\
  exists plain,
    @holds_secret toy_argon2 db_alice "alice" plain /\
    (fst (@Index.post_verifier_motdepasse toy_argon2 (quiet "") db_alice
            (login "alice" "p@ss1")) =
       Index.message 200 "Mot de passe correct !"
     <-> "p@ss1" = plain).
Proof.
  assert (Hin : In alice (utilisateurs db_alice)) by (left; reflexivity).
  split; [exact toy_argon2_correct|]. split; [exact reachable_db_alice|].
  split; [exact Hin|].
  destruct (@verifier_accepts_exactly_the_stored_secret toy_argon2 db_alice alice
              toy_argon2_correct reachable_db_alice Hin) as (plain & Hh & Hv).
  exists plain. split; [exact Hh|].
  apply (Hv (quiet "") "p@ss1" None eq_refl).
Defined.

Lemma verifier_unknown_vs_mismatch_witness :
  @reachable toy_argon2 db_alice /\
  truthy (Body.nomutilisateur (login "alice" "wrong")) = true /\
  truthy (Body.motdepasse (login "alice" "wrong")) = true /\
  store_fault (quiet "") = false /\
  (In alice (utilisateurs db_alice) /\
   nomutilisateur alice = "alice" /\
   @verify toy_argon2 (motdepasse alice) "wrong" = Some false) /\
  fst (@Index.post_verifier_motdepasse toy_argon2 (quiet "") db_alice
         (login "alice" "wrong")) =
    Index.erreur 401 "Mot de passe incorrect, désolé" /\
  (forall r, In r (utilisateurs db_alice) -> nomutilisateur r <> "carol") /\
  fst (@Index.post_verifier_motdepasse toy_argon2 (quiet "") db_alice
         (login "carol" "p@ss1")) =
    Index.erreur 404 "Utilisateur non trouvé".
Proof.
  assert (Hrow : In alice (utilisateurs db_alice) /\
                 nomutilisateur alice = "alice" /\
                 @verify toy_argon2 (motdepasse alice) "wrong" = Some false)
    by (split; [left; reflexivity | split; reflexivity]).
  assert (Hnone : forall r, In r (utilisateurs db_alice) -> nomutilisateur r <> "carol")
    by (intros r [<-|[]]; discriminate).
  split; [exact reachable_db_alice|]. split; [reflexivity|].
  split; [reflexivity|]. split; [reflexivity|]. split; [exact Hrow|]. split.
  - apply (proj2 (proj1 (proj2 (@verifier_unknown_vs_mismatch toy_argon2 (quiet "")
                                  db_alice (login "alice" "wrong")
                                  reachable_db_alice eq_refl eq_refl eq_refl)))).
    exists alice. exact Hrow.
  - split; [exact Hnone|].
    apply (proj2 (proj1 (@verifier_unknown_vs_mismatch toy_argon2 (quiet "")
                           db_alice (login "carol" "p@ss1")
                           reachable_db_alice eq_refl eq_refl eq_refl)) Hnone).
Defined.

(** ** Runs for the further properties *)

Lemma reachable_db_alice_bob : @reachable toy_argon2 db_alice_bob.
Proof.
  exact (@reachable_step toy_argon2 (quiet "s2") db_alice
           (PostUtilisateurs body_bob) reachable_db_alice).
Qed.

Lemma quiet_fault_free s : fault_free (quiet s).
Proof. split; reflexivity. Qed.

Lemma post_then_get_witness :
  @reachable toy_argon2 db_alice /\
  (next_id db_alice < 2 ^ 53)%Z /\
  all_supplied body_bob = true /\
  conflicts body_bob db_alice = false /\
  fault_free (quiet "s2") /\
  store_fault (quiet "") = false /\
  fst (Index.get_utilisateur (quiet "")
         (snd (@Index.post_utilisateurs toy_argon2 (quiet "s2") db_alice body_bob))
         (object_id (created body_bob db_alice))) =
    mkResponse 200 (JObj (created body_bob db_alice)).
Proof.
  assert (Hb : (next_id db_alice < 2 ^ 53)%Z) by reflexivity.
  split; [exact reachable_db_alice|]. split; [exact Hb|].
  split; [reflexivity|]. split; [reflexivity|].
  split; [exact (quiet_fault_free "s2")|]. split; [reflexivity|].
  apply (@post_then_get toy_argon2 (quiet "s2") (quiet "") db_alice body_bob
           reachable_db_alice Hb eq_refl eq_refl (quiet_fault_free "s2") eq_refl).
Defined.


Lemma delete_leaves_the_others_witness :
  store_fault (quiet "") = false /\
  fst (Index.get_utilisateur (quiet "")
         (snd (Index.delete_utilisateur_route (quiet "") db_alice_bob 1)) 2) =
  fst (Index.get_utilisateur (quiet "") db_alice_bob 2).
Proof.
  split; [reflexivity|].
  apply (proj1 (delete_leaves_the_others (quiet "") (quiet "")
                  db_alice_bob 1 eq_refl) 2).
  discriminate.
Defined.

Lemma ids_never_reused_witness :
  @reachable toy_argon2 db_alice /\
  In alice (utilisateurs db_alice) /\
  status (fst (@Index.post_utilisateurs toy_argon2 (quiet "s5")
                 (@serve toy_argon2 db_alice [(quiet "", DeleteUtilisateur 1)])
                 body_alice)) = 201%Z /\
  exists o,
    accounts (fst (@Index.post_utilisateurs toy_argon2 (quiet "s5")
                     (@serve toy_argon2 db_alice [(quiet "", DeleteUtilisateur 1)])
                     body_alice)) = [o] /\
    (id alice < object_id o)%Z.
Proof.
  assert (Hin : In alice (utilisateurs db_alice)) by (left; reflexivity).
  split; [exact reachable_db_alice|]. split; [exact Hin|]. split; [reflexivity|].
  apply (@ids_never_reused toy_argon2 db_alice alice
           [(quiet "", DeleteUtilisateur 1)] (quiet "s5") body_alice
           reachable_db_alice Hin eq_refl).
Defined.

Lemma reachable_accounts_distinct_witness :
  @reachable toy_argon2 db_alice_bob /\
  In alice (utilisateurs db_alice_bob) /\
  In bob (utilisateurs db_alice_bob) /\
  nomutilisateur alice <> "" /\ email alice <> "".
Proof.
  assert (Ha : In alice (utilisateurs db_alice_bob)) by (left; reflexivity).
  assert (Hb : In bob (utilisateurs db_alice_bob)) by (right; left; reflexivity).
  split; [exact reachable_db_alice_bob|]. split; [exact Ha|]. split; [exact Hb|].
  apply (@reachable_accounts_distinct toy_argon2 db_alice_bob alice bob
           reachable_db_alice_bob Ha Hb).
Defined.

Lemma put_own_values_witness :
  @reachable toy_argon2 db_alice_bob /\
  find_id 1 db_alice_bob = Some alice /\
  store_fault (quiet "") = false /\
  @Index.put_utilisateur toy_argon2 (quiet "") db_alice_bob 1 (own_values alice) =
    (Index.message 200 "Utilisateur mis à jour avec succès", db_alice_bob).
Proof.
  split; [exact reachable_db_alice_bob|]. split; [reflexivity|].
  split; [reflexivity|].
  apply (@put_own_values toy_argon2 (quiet "") db_alice_bob 1 alice
           reachable_db_alice_bob eq_refl eq_refl).
Defined.

Lemma put_without_secret_ignores_hasher_witness :
  supplied Motdepasse body_email = false /\
  store_fault (mkEnv "a" true false) = store_fault (quiet "b") /\
  @Index.put_utilisateur toy_argon2 (mkEnv "a" true false) db_alice 1 body_email =
  @Index.put_utilisateur toy_argon2 (quiet "b") db_alice 1 body_email.
Proof.
  split; [reflexivity|]. split; [reflexivity|].
  apply (@put_without_secret_ignores_hasher toy_argon2 (mkEnv "a" true false)
           (quiet "b") db_alice 1 body_email eq_refl eq_refl).
Defined.

Lemma variant_agrees_witness :
  all_supplied (Body.mk (Some "bob") (Some "pw") (Some "z@x.io")) = true /\
  @Variant.put_utilisateur toy_argon2 (quiet "s6") db_alice_bob 1
    (Body.mk (Some "bob") (Some "pw") (Some "z@x.io")) =
  (Variant.error 400 "Erreur lors de la mise à jour de l'utilisateur", db_alice_bob) /\
  @Variant.put_utilisateur toy_argon2 (quiet "s6") db_alice_bob 1
    (Body.mk (Some "bob") (Some "pw") (Some "z@x.io")) =
  outcome_as_variant
    (@Index.put_utilisateur toy_argon2 (quiet "s6") db_alice_bob 1
       (Body.mk (Some "bob") (Some "pw") (Some "z@x.io"))).
Proof.
  split; [reflexivity|]. split; [reflexivity|].
  apply (proj2 (proj2 (proj2 (proj2
    (@variant_agrees toy_argon2 (quiet "s6") db_alice_bob 1
       (Body.mk (Some "bob") (Some "pw") (Some "z@x.io"))))))
    eq_refl).
Defined.

Lemma update_statement_never_empty_witness :
  some_supplied body_email = true /\
  @Index.updates toy_argon2 (quiet "s") body_email = Val [(Email, "new@x")] /\
  [(Email, "new@x")] <> [] /\ set_clause [(Email, "new@x")] <> "".
Proof.
  split; [reflexivity|]. split; [reflexivity|].
  apply (@update_statement_never_empty toy_argon2 (quiet "s") body_email
           [(Email, "new@x")] eq_refl eq_refl).
Defined.

Lemma post_then_verify_witness :
  @hasher_correct toy_argon2 /\
  @reachable toy_argon2 empty_db /\
  status (fst (@Index.post_utilisateurs toy_argon2 (quiet "s1") empty_db body_alice))
    = 201%Z /\
  store_fault (quiet "") = false /\
  (fst (@Index.post_verifier_motdepasse toy_argon2 (quiet "")
          (snd (@Index.post_utilisateurs toy_argon2 (quiet "s1") empty_db body_alice))
          (login (text (Body.nomutilisateur body_alice)) "p@ss1")) =
     Index.message 200 "Mot de passe correct !"
   <-> "p@ss1" = text (Body.motdepasse body_alice)).
Proof.
  split; [exact toy_argon2_correct|]. split; [exact (@reachable_empty toy_argon2)|].
  split; [reflexivity|]. split; [reflexivity|].
  apply (@post_then_verify toy_argon2 (quiet "s1") (quiet "") empty_db body_alice
           "p@ss1" toy_argon2_correct (@reachable_empty toy_argon2) eq_refl eq_refl).
Defined.

Lemma put_secret_then_verify_witness :
  @hasher_correct toy_argon2 /\
  @reachable toy_argon2 db_alice /\
  find_id 1 db_alice = Some alice /\
  supplied Motdepasse body_secret = true /\
  status (fst (@Index.put_utilisateur toy_argon2 (quiet "s7") db_alice 1 body_secret))
    = 200%Z /\
  store_fault (quiet "") = false /\
  (fst (@Index.post_verifier_motdepasse toy_argon2 (quiet "")
          (snd (@Index.put_utilisateur toy_argon2 (quiet "s7") db_alice 1 body_secret))
          (login (name_after body_secret alice) "p@ss1")) =
     Index.message 200 "Mot de passe correct !"
   <-> "p@ss1" = text (Body.motdepasse body_secret)).
Proof.
  split; [exact toy_argon2_correct|]. split; [exact reachable_db_alice|].
  split; [reflexivity|]. split; [reflexivity|]. split; [reflexivity|].
  split; [reflexivity|].
  apply (@put_secret_then_verify toy_argon2 (quiet "s7") (quiet "") db_alice 1
           body_secret alice "p@ss1" toy_argon2_correct reachable_db_alice
           eq_refl eq_refl eq_refl eq_refl).
Defined.

Lemma put_without_secret_keeps_secret_witness :
  @reachable toy_argon2 db_alice /\
  find_id 1 db_alice = Some alice /\
  supplied Motdepasse body_email = false /\
  status (fst (@Index.put_utilisateur toy_argon2 (quiet "s3") db_alice 1 body_email))
    = 200%Z /\
  fst (@Index.post_verifier_motdepasse toy_argon2 (quiet "")
         (snd (@Index.put_utilisateur toy_argon2 (quiet "s3") db_alice 1 body_email))
         (login (name_after body_email alice) "p@ss1")) =
  fst (@Index.post_verifier_motdepasse toy_argon2 (quiet "") db_alice
         (login (nomutilisateur alice) "p@ss1")).
Proof.
  split; [exact reachable_db_alice|]. split; [reflexivity|].
  split; [reflexivity|]. split; [reflexivity|].
  apply (@put_without_secret_keeps_secret toy_argon2 (quiet "s3") (quiet "")
           db_alice 1 body_email alice "p@ss1" reachable_db_alice
           eq_refl eq_refl eq_refl).
Defined.

Lemma delete_frees_name_witness :
  @reachable toy_argon2 db_alice_bob /\
  find_id 1 db_alice_bob = Some alice /\
  store_fault (quiet "") = false /\
  fault_free (quiet "s8") /\
  "pw" <> "" /\
  status (fst (@Index.post_utilisateurs toy_argon2 (quiet "s8")
                 (snd (Index.delete_utilisateur_route (quiet "") db_alice_bob 1))
                 (Body.mk (Some (nomutilisateur alice)) (Some "pw")
                    (Some (email alice))))) = 201%Z.
Proof.
  assert (Hpw : "pw" <> "") by discriminate.
  split; [exact reachable_db_alice_bob|]. split; [reflexivity|].
  split; [reflexivity|]. split; [exact (quiet_fault_free "s8")|].
  split; [exact Hpw|].
  apply (@delete_frees_name toy_argon2 (quiet "") (quiet "s8") db_alice_bob 1
           alice "pw" reachable_db_alice_bob eq_refl eq_refl
           (quiet_fault_free "s8") Hpw).
Defined.

Lemma put_conflict_witness :
  some_supplied (Body.mk (Some "bob") None None) = true /\
  fault_free (quiet "s3") /\
  find_id 1 db_alice_bob = Some alice /\
  taken_by_another 1 (Body.mk (Some "bob") None None) db_alice_bob /\
  status (fst (@Index.put_utilisateur toy_argon2 (quiet "s3") db_alice_bob 1
                 (Body.mk (Some "bob") None None))) = 400%Z.
Proof.
  assert (Ht : taken_by_another 1 (Body.mk (Some "bob") None None) db_alice_bob).
  { exists bob. split; [right; left; reflexivity|]. split; [discriminate|].
    left. split; reflexivity. }
  split; [reflexivity|]. split; [exact (quiet_fault_free "s3")|].
  split; [reflexivity|]. split; [exact Ht|].
  apply (proj2 (proj1 (@put_conflict toy_argon2 (quiet "s3") db_alice_bob 1
                         (Body.mk (Some "bob") None None) alice
                         eq_refl (quiet_fault_free "s3") eq_refl)) Ht).
Defined.

Lemma get_utilisateurs_snapshot_witness :
  @reachable toy_argon2 db_alice_bob /\
  store_fault (quiet "") = false /\
  Index.get_utilisateurs (quiet "") db_alice_bob =
    (mkResponse 200 (JArr [public_row alice; public_row bob]), db_alice_bob) /\
  map object_id (accounts (fst (Index.get_utilisateurs (quiet "") db_alice_bob))) =
    [1; 2]%Z /\
  status (fst (@Index.post_utilisateurs toy_argon2 (quiet "s4") db_alice_bob
                 body_carol)) = 201%Z /\
  map object_id
    (accounts (fst (Index.get_utilisateurs (quiet "")
                      (snd (@Index.post_utilisateurs toy_argon2 (quiet "s4")
                              db_alice_bob body_carol))))) = [1; 2; 3]%Z.
Proof.
  destruct (@get_utilisateurs_snapshot toy_argon2 (quiet "") db_alice_bob
              reachable_db_alice_bob eq_refl) as (Hget & _ & _ & Hins).
  split; [exact reachable_db_alice_bob|]. split; [reflexivity|].
  split; [exact Hget|]. split; [rewrite Hget; reflexivity|].
  split; [reflexivity|].
  rewrite (Hins (quiet "s4") body_carol eq_refl), Hget. reflexivity.
Defined.
